(** * MathInspector console: the interpreter of [mathinspector/console/interpreter.py]

    A shallow embedding of class [Interpreter]: the namespace callbacks
    ([setitem], [delitem], [synclocals]), the two execution entry points
    ([exec], [push]), the output router ([write]) and the traceback
    presenter ([showtraceback]).

    The interpreter object is a record; every method is a function in a
    small state-and-exception monad over that record.  Calls to the
    collaborators that live outside the file (the prompt, the code parser,
    the menu, the Tk text widget, the two registries of the application) are
    recorded, in order, in a ghost [trace]. *)

From Stdlib Require Import Ascii String ZArith Decimal DecimalString.
From stdpp Require Import gmap strings list fin_maps.

Local Open Scope string_scope.

(** ** Python strings *)

Module PyStr.

Definition chr_bell : ascii := "007"%char.
Definition chr_tab : ascii := "009"%char.
Definition chr_nl : ascii := "010"%char.
Definition chr_cr : ascii := "013"%char.

Definition bell : string := String chr_bell "".
Definition tab : string := String chr_tab "".
Definition nl : string := String chr_nl "".
Definition cr : string := String chr_cr "".
Definition dquote : string := String "034"%char "".

(** [s[:n]] *)
Fixpoint slice_to (n : nat) (s : string) : string :=
  match n, s with
  | S n', String a s' => String a (slice_to n' s')
  | _, _ => ""
  end.

(** [s[n:]] *)
Fixpoint slice_from (n : nat) (s : string) : string :=
  match n, s with
  | S n', String _ s' => slice_from n' s'
  | _, _ => s
  end.

(** [c in s] for a one-character [c] *)
Fixpoint contains (c : ascii) (s : string) : bool :=
  match s with
  | "" => false
  | String a s' => Ascii.eqb a c || contains c s'
  end.

(** [s.rsplit(c, 1)[1]], evaluated by the source only when [c in s];
    on a string without [c] (where Python raises IndexError) the model
    returns the string itself. *)
Fixpoint rsplit1_last (c : ascii) (s : string) : string :=
  match s with
  | "" => ""
  | String a s' =>
      if contains c s' then rsplit1_last c s'
      else if Ascii.eqb a c then s' else String a s'
  end.

(** [str.isspace]: a character stands for its code point, below 256; the
    white space there is 9 to 13, 28 to 32, 133 and 160. *)
Definition is_space (a : ascii) : bool :=
  let n := nat_of_ascii a in
  (Nat.leb 9 n && Nat.leb n 13) || (Nat.leb 28 n && Nat.leb n 32)
  || Nat.eqb n 133 || Nat.eqb n 160.

(** [s.strip() == ""] *)
Fixpoint is_blank (s : string) : bool :=
  match s with
  | "" => true
  | String a s' => is_space a && is_blank s'
  end.

(** [s.rstrip()] *)
Fixpoint rstrip (s : string) : string :=
  match s with
  | "" => ""
  | String a s' =>
      match rstrip s' with
      | "" => if is_space a then "" else String a ""
      | r => String a r
      end
  end.

(** [list(s)]: the one-character strings of [s], which is what iterating
    over a string yields. *)
Fixpoint chars (s : string) : list string :=
  match s with
  | "" => []
  | String a s' => String a "" :: chars s'
  end.

(** ["".join(l)] *)
Fixpoint join (l : list string) : string :=
  match l with
  | [] => ""
  | x :: l' => x +:+ join l'
  end.

Definition is_letter (a : ascii) : bool :=
  let n := nat_of_ascii a in
  (Nat.leb 65 n && Nat.leb n 90) || (Nat.leb 97 n && Nat.leb n 122).

(** [re.match(RE_TRACEBACK, s)], RE_TRACEBACK =
    [^()(Traceback \(most recent call last\))] *)
Definition re_traceback (s : string) : bool :=
  String.prefix "Traceback (most recent call last)" s.

(** [re.match(RE_EXCEPTION, s)], RE_EXCEPTION = [^()([A-Za-z]*Error:)]:
    some run of letters at the start of [s] is followed by [Error:]. *)
Fixpoint re_exception (s : string) : bool :=
  String.prefix "Error:" s ||
  match s with
  | "" => false
  | String a s' => is_letter a && re_exception s'
  end.

(** Offset of the start of the last line of [s]: the Tk index
    ["end-1l linestart"] of a text widget holding [s]. *)
Fixpoint last_line_start (s : string) : nat :=
  match s with
  | "" => 0
  | String a s' =>
      if contains chr_nl s then S (last_line_start s') else 0
  end.

(** Decimal rendering of a line number, [str(n)]. *)
Definition of_nat (n : nat) : string := NilZero.string_of_uint (Nat.to_uint n).

(** [s * n] *)
Fixpoint times (s : string) (n : nat) : string :=
  match n with
  | 0 => ""
  | S n' => s +:+ times s n'
  end.

End PyStr.

(** ** Data model *)

(** One entry of a traceback, as [traceback.FrameSummary] holds it. *)
Record frame := Frame {
  fr_file : string;
  fr_line : nat;
  fr_name : string;
  fr_text : string;                (* the source line, stripped; empty when
                                      the source is not at hand *)
  fr_marks : option string         (* the line of position marks printed
                                      under the source line, if one is *)
}.

(** How an exception is tied to the one printed before it: it was raised
    [from] it, or while it was being handled. *)
Inductive link := Cause | Context.

(** An exception instance, as the standard formatter sees it: the
    qualified name of its class; the text printed after that name
    ([str(value)]; for a [SyntaxError] its message and file suffix); for a
    [SyntaxError] the lines that locate the error (file and line, source
    text, caret), none otherwise; the lines of its notes; and the exception
    printed before it with the traceback of that exception (its
    [__cause__], or else its [__context__] unless suppressed).  Exception
    groups are outside the model. *)
#[warnings="-register-all"] Inductive exc := MkExc {
  exc_type : string;
  exc_msg : string;
  exc_where : list string;
  exc_notes : list string;
  exc_chain : option (link * exc * list frame)
}.

(** An exception of class [t] with message [m] and nothing else. *)
Definition Exc (t m : string) : exc := MkExc t m [] [] None.

(** The values that reach the interpreter: what user code binds and what
    it prints.  [inspect.ismodule], [isinstance(_, np.ndarray)],
    [isinstance(_, str)] and [isinstance(_, Exception)] are the
    constructor tests. *)
Inductive value :=
| VNone
| VStr (s : string)
| VArray (a : list Z)
| VModule (name : string)
| VExc (e : exc)
| VObj (repr : string).

Definition ismodule (v : value) : bool :=
  match v with VModule _ => true | _ => false end.

Definition is_ndarray (v : value) : bool :=
  match v with VArray _ => true | _ => false end.

Definition is_str (v : value) : bool :=
  match v with VStr _ => true | _ => false end.

Definition is_exception (v : value) : bool :=
  match v with VExc _ => true | _ => false end.

(** [a.any()] of a numeric array: some element is not zero. *)
Definition ndarray_any (a : list Z) : bool :=
  existsb (fun x => negb (Z.eqb x 0)) a.

(** The [tags] argument of [write].  The source passes a tuple by default
    and the bare string ["red"] from [showtraceback]; unpacking a string
    ([*tags], [list(tags)]) yields its characters, while the text widget
    takes the string as one tag. *)
Inductive tags :=
| TStr (s : string)
| TTuple (l : list string).

Definition iter_tags (t : tags) : list string :=
  match t with
  | TStr s => PyStr.chars s
  | TTuple l => l
  end.

Definition tk_tags (t : tags) : list string :=
  match t with
  | TStr s => [s]
  | TTuple l => l
  end.

(** What a piece of user code does when [exec] runs it, as far as the
    interpreter can observe: it binds names in the namespace
    (through [vdict.__setitem__]), writes to [sys.stdout] (which [__init__]
    points at [Interpreter.write]), and then returns, raises, or raises
    [SystemExit]. *)
Inductive action :=
| Bind (n : string) (v : value)
| Out (args : list value).

Inductive completion :=
| Returns
| Raises (e : exc) (tb : list frame)
| Exits (e : exc).

Record code := Code { acts : list action; final : completion }.

(** Result of [InteractiveInterpreter.compile] (a [codeop.CommandCompiler]):
    a code object; [None] for incomplete input; a raised [SyntaxError],
    [OverflowError] or [ValueError], with the frames of the compiler below
    [runsource]; or any other exception raised by the compiler
    ([RecursionError], [MemoryError]), which [runsource] does not catch. *)
Inductive compiled :=
| Complete (c : code)
| Incomplete
| Invalid (e : exc) (tb : list frame)
| Fails (e : exc).

(** Ghost log of what the interpreter does to its collaborators, and of
    the steps of [exec] whose order matters. *)
Inductive event :=
| EvSetFlag (b : bool)
| EvSync
| EvPreprocess (src : string)
| EvPostprocess (src : string)
| EvCompile (src filename symbol : string)
| EvExec (c : code)
| EvModules (k : string) (v : value)
| EvObjects (k : string) (v : value)
| EvModulesDel (k : string)
| EvObjectsDel (k : string)
| EvDelete (from : nat)
| EvInsert (text : string) (tg : list string)
| EvSee
| EvPromptMove
| EvPrompt
| EvSetView (name : string) (on : bool).

(** The interpreter object together with the state of its collaborators
    that the methods read or write. *)
Record interp := Interp {
  locals : gmap string value;      (* self.locals.store *)
  objects : gmap string value;     (* self.app.objects.store *)
  modules : gmap string value;     (* self.app.modules.store *)
  buffer : list string;            (* self.buffer *)
  history : list string;           (* entries of self.prompt.history *)
  prevent_module_import : bool;
  cursor_position : nat;
  display : string;                (* text held by the widget *)
  trace : list event
}.

(** Outcome of a method call: it returns, or an exception propagates to
    the caller; either way the object has been mutated so far. *)
Inductive res (A : Type) :=
| Ok (a : A) (st : interp)
| Exn (e : exc) (st : interp).
Arguments Ok {A} a st.
Arguments Exn {A} e st.

Definition M (A : Type) : Type := interp -> res A.

Definition ret {A} (a : A) : M A := fun st => Ok a st.

Definition bind {A B} (m : M A) (k : A -> M B) : M B :=
  fun st =>
    match m st with
    | Ok a st' => k a st'
    | Exn e st' => Exn e st'
    end.

Definition raise {A} (e : exc) : M A := fun st => Exn e st.

(** A step that cannot raise. *)
Definition lift (f : interp -> interp) : M unit := fun st => Ok tt (f st).

Notation "'do' x <- m ;; k" := (bind m (fun x => k))
  (at level 10, x name, m at level 99, k at level 200).
Notation "m ;; k" := (bind m (fun _ => k))
  (at level 100, right associativity).

Definition final_state {A} (r : res A) : interp :=
  match r with Ok _ st => st | Exn _ st => st end.

Definition returns {A} (r : res A) : bool :=
  match r with Ok _ _ => true | Exn _ _ => false end.

(** ** Field updates *)

Definition log (e : event) (st : interp) : interp :=
  Interp (locals st) (objects st) (modules st) (buffer st) (history st)
         (prevent_module_import st) (cursor_position st) (display st)
         (trace st ++ [e]).

Definition with_locals (m : gmap string value) (st : interp) : interp :=
  Interp m (objects st) (modules st) (buffer st) (history st)
         (prevent_module_import st) (cursor_position st) (display st)
         (trace st).

Definition with_objects (m : gmap string value) (st : interp) : interp :=
  Interp (locals st) m (modules st) (buffer st) (history st)
         (prevent_module_import st) (cursor_position st) (display st)
         (trace st).

Definition with_modules (m : gmap string value) (st : interp) : interp :=
  Interp (locals st) (objects st) m (buffer st) (history st)
         (prevent_module_import st) (cursor_position st) (display st)
         (trace st).

Definition with_buffer (b : list string) (st : interp) : interp :=
  Interp (locals st) (objects st) (modules st) b (history st)
         (prevent_module_import st) (cursor_position st) (display st)
         (trace st).

Definition with_history (h : list string) (st : interp) : interp :=
  Interp (locals st) (objects st) (modules st) (buffer st) h
         (prevent_module_import st) (cursor_position st) (display st)
         (trace st).

Definition with_flag (b : bool) (st : interp) : interp :=
  Interp (locals st) (objects st) (modules st) (buffer st) (history st)
         b (cursor_position st) (display st) (trace st).

Definition with_cursor (n : nat) (st : interp) : interp :=
  Interp (locals st) (objects st) (modules st) (buffer st) (history st)
         (prevent_module_import st) n (display st) (trace st).

Definition with_display (d : string) (st : interp) : interp :=
  Interp (locals st) (objects st) (modules st) (buffer st) (history st)
         (prevent_module_import st) (cursor_position st) d (trace st).

(** ** Collaborators *)

(** Modelled from the spec: the two registries [app.objects] and
    [app.modules] are [vdict]s of [mathinspector/util], which is not part
    of the file; the spec describes them as "two external key-value stores
    with insertion/removal operations".  An assignment stores the entry and
    notifies the registry (the ghost event); a deletion of an absent key
    raises [KeyError] as for any mapping. *)
Definition objects_setitem (k : string) (v : value) (st : interp) : interp :=
  log (EvObjects k v) (with_objects (<[k:=v]> (objects st)) st).

Definition modules_setitem (k : string) (v : value) (st : interp) : interp :=
  log (EvModules k v) (with_modules (<[k:=v]> (modules st)) st).

Definition KeyError (k : string) : exc := Exc "KeyError" k.

Definition objects_delitem (k : string) : M unit := fun st =>
  match objects st !! k with
  | Some _ => Ok tt (log (EvObjectsDel k) (with_objects (delete k (objects st)) st))
  | None => Exn (KeyError k) st
  end.

Definition modules_delitem (k : string) : M unit := fun st =>
  match modules st !! k with
  | Some _ => Ok tt (log (EvModulesDel k) (with_modules (delete k (modules st)) st))
  | None => Exn (KeyError k) st
  end.

(** Modelled from the spec: the text widget ([mathinspector/widget], a
    [tk.Text]) holds the display buffer.  The model keeps its characters
    (without the newline Tk appends on its own) and takes an index as a
    character offset: [delete(i, "end")] keeps the first [i] characters,
    [insert("end", s, tags)] appends.  Tags and highlighting do not change
    the text; the tags of an insertion are kept in the ghost event. *)
Definition text_delete (from : nat) (st : interp) : interp :=
  log (EvDelete from) (with_display (PyStr.slice_to from (display st)) st).

Definition text_insert (s : string) (tg : list string) (st : interp) : interp :=
  log (EvInsert s tg) (with_display (display st +:+ s) st).

(** Modelled from the spec: [prompt.history] is an object of a class of
    [mathinspector/console/prompt], which is not part of the file.  The
    spec's data model has History as an "ordered append-only log of
    submitted input lines", and its contract of a submission says that a
    complete line is appended to it: that is the call [history.extend(s)],
    the other call [push] makes being [history.append(s)].  Either call logs
    the submitted line as one entry.  (The spec's open question reads the
    first call as if the history were a plain list; the contract is
    followed here.) *)
Definition history_append (s : string) (st : interp) : interp :=
  with_history (history st ++ [s]) st.

Definition history_extend (s : string) (st : interp) : interp :=
  with_history (history st ++ [s]) st.

(** *** The standard library's [traceback] *)

(** [StackSummary.format_frame_summary]: the entry of one frame; the
    source line is printed when there is one, and the position marks
    under it. *)
Definition format_frame (f : frame) : string :=
  "  File " +:+ PyStr.dquote +:+ fr_file f +:+ PyStr.dquote +:+
  ", line " +:+ PyStr.of_nat (fr_line f) +:+ ", in " +:+ fr_name f +:+ PyStr.nl +:+
  (if String.eqb (fr_text f) "" then ""
   else "    " +:+ fr_text f +:+ PyStr.nl +:+
        match fr_marks f with
        | Some marks => "    " +:+ marks +:+ PyStr.nl
        | None => ""
        end).

(** The test [StackSummary.format] makes between a frame and the one
    before it: same file, same line, same function. *)
Definition same_place (f g : frame) : bool :=
  String.eqb (fr_file f) (fr_file g)
  && Nat.eqb (fr_line f) (fr_line g)
  && String.eqb (fr_name f) (fr_name g).

(** [_RECURSIVE_CUTOFF] *)
Definition recursive_cutoff : nat := 3.

Definition repeated_line (count : nat) : string :=
  "  [Previous line repeated " +:+ PyStr.of_nat count +:+ " more time" +:+
  (if Nat.ltb 1 count then "s" else "") +:+ "]" +:+ PyStr.nl.

(** What the loop of [StackSummary.format] appends once a run of [count]
    frames at one place is over. *)
Definition flush_run (count : nat) : list string :=
  if Nat.ltb recursive_cutoff count
  then [repeated_line (count - recursive_cutoff)] else [].

(** The loop of [StackSummary.format]: [last] is the frame seen last and
    [count] the length of the run it ends. *)
Fixpoint format_stack_loop (last : option frame) (count : nat) (frames : list frame)
  : list string :=
  match frames with
  | [] => flush_run count
  | f :: rest =>
      let differs :=
        match last with
        | None => true
        | Some g => negb (same_place g f)
        end in
      let flushed := if differs then flush_run count else [] in
      let count := S (if differs then 0 else count) in
      flushed
      ++ (if Nat.ltb recursive_cutoff count then [] else [format_frame f])
      ++ format_stack_loop (Some f) count rest
  end.

Definition format_stack (frames : list frame) : list string :=
  format_stack_loop None 0 frames.

(** [_format_final_exc_line] *)
Definition final_line (e : exc) : string :=
  exc_type e +:+
  (if String.eqb (exc_msg e) "" then "" else ": " +:+ exc_msg e) +:+ PyStr.nl.

(** [TracebackException.format_exception_only] *)
Definition format_exception_only (e : exc) : list string :=
  exc_where e ++ [final_line e] ++ exc_notes e.

Definition traceback_header : string :=
  "Traceback (most recent call last):" +:+ PyStr.nl.

(** [_cause_message] and [_context_message] *)
Definition link_message (k : link) : string :=
  match k with
  | Cause =>
      PyStr.nl +:+ "The above exception was the direct cause of the following exception:"
      +:+ PyStr.nl +:+ PyStr.nl
  | Context =>
      PyStr.nl +:+ "During handling of the above exception, another exception occurred:"
      +:+ PyStr.nl +:+ PyStr.nl
  end.

(** One exception of a chain: its stack under the header, if it has
    frames, and the exception itself. *)
Definition format_one (e : exc) (tb : list frame) : list string :=
  match tb with
  | [] => []
  | _ => traceback_header :: format_stack tb
  end ++ format_exception_only e.

(** The exceptions printed before [e], the oldest first, each followed by
    the message that ties it to the next. *)
Fixpoint format_chain (e : exc) : list string :=
  match e with
  | MkExc _ _ _ _ (Some (k, e', tb')) =>
      format_chain e' ++ format_one e' tb' ++ [link_message k]
  | MkExc _ _ _ _ None => []
  end.

(** [traceback.format_exception(etype, value, tb)] *)
Definition format_exception (e : exc) (tb : list frame) : list string :=
  format_chain e ++ format_one e tb.

(** ** The interpreter *)

Section Interpreter.

(** [codeop]'s compiler: source, filename and symbol to a [compiled]. *)
Variable compile : string -> string -> string -> compiled.

(** [str(v)] of the values that are not strings. *)
Variable render : value -> string.

Definition py_str (v : value) : string :=
  match v with
  | VStr s => s
  | VNone => "None"
  | _ => render v
  end.

(** *** NamespaceStore: [setitem], [delitem], [synclocals] *)

Definition setitem (key : string) (v : value) (st : interp) : interp :=
  if ismodule v then
    if negb (prevent_module_import st) then modules_setitem key v st
    else st
  else
    if prevent_module_import st then
      if Nat.eqb (String.length key) 1
         || negb (String.eqb (PyStr.slice_to 2 key) "__")
      then objects_setitem key v st
      else st
    else objects_setitem key v st.

Definition delitem (key : string) (v : value) : M unit :=
  if ismodule v then modules_delitem key else objects_delitem key.

(** [dict.update] twice: the later update wins, and stdpp's union keeps
    the left operand on a clash. *)
Definition synclocals (st : interp) : interp :=
  log EvSync (with_locals (modules st ∪ (objects st ∪ locals st)) st).

(** *** OutputRouter: [write] *)

(** [v in ("\a", "\n", " ", "", None)] *)
Definition insignificant (v : value) : bool :=
  match v with
  | VNone => true
  | VStr s =>
      String.eqb s PyStr.bell || String.eqb s PyStr.nl
      || String.eqb s " " || String.eqb s ""
  | _ => false
  end.

(** The test made on a single-item call before anything is written. *)
Definition quiet (v : value) : bool :=
  if is_ndarray v then
    match v with VArray a => negb (ndarray_any a) | _ => false end
  else insignificant v.

(** Body of the loop [for r in args]. *)
Definition write_item (nargs : nat) (acc : interp * tags) (r : value)
  : interp * tags :=
  let '(st, tg) := acc in
  let '(r, st) :=
    if is_str r && PyStr.contains PyStr.chr_cr (py_str r) then
      (VStr (PyStr.rsplit1_last PyStr.chr_cr (py_str r)),
       text_insert PyStr.nl [] (text_delete (cursor_position st) st))
    else (r, st) in
  let tg :=
    if PyStr.re_traceback (py_str r) || PyStr.re_exception (py_str r)
    then TTuple ("red" :: iter_tags tg) else tg in
  match r with
  | VNone => (st, tg)
  | _ =>
      let tg := if is_exception r then TTuple (iter_tags tg ++ ["red"]) else tg in
      let st := text_insert (py_str r) (tk_tags tg) st in
      let st := if Nat.ltb 1 nargs then text_insert PyStr.tab [] st else st in
      (st, tg)
  end.

(** The four [highlight] passes only add tags to text already inserted and
    their failures are swallowed; the text is the same after them. *)
Definition write (args : list value) (tg : tags) (st : interp) : interp :=
  if prevent_module_import st then st
  else if match args with [a] => quiet a | _ => false end then st
  else
    let st1 := fst (fold_left (write_item (length args)) args (st, tg)) in
    let st2 :=
      if negb (PyStr.is_blank (display st1))
      then text_insert PyStr.nl [] st1 else st1 in
    log EvPromptMove (log EvSee st2).

(** *** TracebackPresenter: [showtraceback] *)

Definition AttributeError : exc :=
  Exc "AttributeError" "'NoneType' object has no attribute 'tb_next'".

(** The text handed to [write]: the formatted exception with the frames
    after the first one, joined and right-stripped. *)
Definition traceback_text (e : exc) (tb_next : list frame) : string :=
  PyStr.rstrip (PyStr.join (format_exception e tb_next)).

(** [ei] is [sys.exc_info()]: nothing when no exception is being
    handled, else the exception with the first entry of its traceback and
    the entries after it.  The [finally] clause only drops local names. *)
Definition showtraceback (ei : option (exc * frame * list frame)) : M unit :=
  match ei with
  | None => raise AttributeError
  | Some (e, _, tb_next) =>
      lift (write [VStr (traceback_text e tb_next)] (TStr "red")) ;;
      lift (log (EvSetView "console" true))
  end.

(** *** [code.InteractiveInterpreter]: [runcode], [runsource]

    The two methods inherited from the standard library.  The first
    traceback entry of an exception caught there is the frame of the
    method that caught it. *)

Definition runcode_frame : frame :=
  Frame "/usr/lib/python3.11/code.py" 90 "runcode" "exec(code, self.locals)" None.

Definition runsource_frame : frame :=
  Frame "/usr/lib/python3.11/code.py" 63 "runsource"
    "code = self.compile(source, filename, symbol)"
    (Some (PyStr.times " " 7 +:+ PyStr.times "^" 38)).

(** [vdict.__setitem__] on the namespace stores the binding and calls the
    [setitem] callback given to the constructor; a write to [sys.stdout]
    is a call of [write] with the default tags. *)
Definition run_action (st : interp) (a : action) : interp :=
  match a with
  | Bind n v => setitem n v (with_locals (<[n:=v]> (locals st)) st)
  | Out args => write args (TTuple []) st
  end.

Definition runcode (c : code) : M unit :=
  lift (log (EvExec c)) ;;
  lift (fun st => fold_left run_action (acts c) st) ;;
  match final c with
  | Returns => ret tt
  | Raises e tb => showtraceback (Some (e, runcode_frame, tb))
  | Exits e => raise e
  end.

(** Returns [True] when more input is required.  [__init__] replaces
    [sys.excepthook], so [showsyntaxerror] hands the error to
    [showtraceback].  An exception of the compiler other than the three
    that are caught leaves [runsource]. *)
Definition runsource (source filename symbol : string) : M bool :=
  lift (log (EvCompile source filename symbol)) ;;
  match compile source filename symbol with
  | Invalid e tb =>
      showtraceback (Some (e, runsource_frame, tb)) ;; ret false
  | Incomplete => ret true
  | Complete c => runcode c ;; ret false
  | Fails e => raise e
  end.

(** *** ExecutionEngine: [exec], [push] *)

Definition set_flag (b : bool) : M unit :=
  lift (fun st => log (EvSetFlag b) (with_flag b st)).

Definition exec (source filename : string) : M unit :=
  set_flag true ;;
  lift synclocals ;;
  lift (log (EvPreprocess source)) ;;
  (do _r <- runsource source filename "exec" ;;
   lift (log (EvPostprocess source)) ;;
   set_flag false).

(** The test of the deletion shortcut. *)
Definition del_shortcut (source : string) (st : interp) : bool :=
  String.eqb (PyStr.slice_to 3 source) "del"
  && bool_decide (is_Some (objects st !! PyStr.slice_from 4 source)).

Definition push (s filename symbol : string) : M unit :=
  lift (fun st => with_cursor (PyStr.last_line_start (display st)) st) ;;
  lift synclocals ;;
  fun st0 =>
    let source := PyStr.join (buffer st0 ++ [s]) in
    (lift (log (EvPreprocess source)) ;;
     fun st =>
       if del_shortcut source st then
         (objects_delitem (PyStr.slice_from 4 source) ;;
          lift (log EvPrompt)) st
       else
         ((if String.eqb (PyStr.slice_to 4 source) "plot"
           then lift (log EvPrompt) else ret tt) ;;
          (do did_compile <- runsource source filename symbol ;;
           (if did_compile : bool then
              lift (fun st => with_buffer (buffer st ++ [s +:+ PyStr.nl]) st) ;;
              lift (history_append s)
            else
              lift (log (EvPostprocess source)) ;;
              lift (history_extend s) ;;
              lift (with_buffer [])) ;;
           lift (log EvPrompt))) st) st0.

End Interpreter.

(** ** A sample session

    A freshly constructed interpreter with an empty display, and a
    compiler that answers as CPython 3.11 does on the handful of sources
    used below.  [__init__] records [index("end")] as cursor position: the
    end of the text, past the newline the widget keeps after it, which is
    the offset 1 for the empty display.  (An index of Tk names a line and a
    column; the model keeps the offset it stands for in the text it was
    taken from, and every [push] takes a new one before anything is
    written.) *)

Definition initial : interp :=
  Interp (<["plot" := VObj "plot"]> (<["app" := VObj "app"]> ∅)) ∅ ∅
         [] [] false 1 "" [].

Definition ZeroDivisionError : exc := Exc "ZeroDivisionError" "division by zero".
Definition SystemExit : exc := Exc "SystemExit" "".
Definition NameError : exc := Exc "NameError" "name 'x' is not defined".
Definition RecursionError : exc :=
  Exc "RecursionError" "maximum recursion depth exceeded during compilation".

(** A syntax error at line [n] of [filename], with the source line and the
    caret line the formatter prints for it. *)
Definition syntax_error (type msg filename : string) (n : nat) (text caret : string)
  : exc :=
  MkExc type msg
    ["  File " +:+ PyStr.dquote +:+ filename +:+ PyStr.dquote +:+ ", line "
       +:+ PyStr.of_nat n +:+ PyStr.nl;
     "    " +:+ text +:+ PyStr.nl;
     "    " +:+ caret +:+ PyStr.nl]
    [] None.

Definition SyntaxError (filename : string) : exc :=
  syntax_error "SyntaxError" "invalid syntax" filename 1 "x = = 1" "    ^".

Definition IndentationError (filename : string) : exc :=
  syntax_error "IndentationError"
    "expected an indented block after 'if' statement on line 1"
    filename 2 "del x" "^^^".

(** The frames of [codeop] between [runsource] and the builtin
    [compile]. *)
Definition codeop_frames : list frame :=
  [Frame "/usr/lib/python3.11/codeop.py" 153 "__call__"
     "return _maybe_compile(self.compiler, source, filename, symbol)"
     (Some (PyStr.times " " 7 +:+ PyStr.times "^" 55));
   Frame "/usr/lib/python3.11/codeop.py" 73 "_maybe_compile"
     "return compiler(source, filename, symbol)"
     (Some (PyStr.times " " 7 +:+ PyStr.times "^" 34));
   Frame "/usr/lib/python3.11/codeop.py" 118 "__call__"
     "codeob = compile(source, filename, symbol, self.flags, True)"
     (Some (PyStr.times " " 9 +:+ PyStr.times "^" 51))].

Definition block_head : string := "if True:".
Definition block_body : string := "    x = 1".
Definition block : string :=
  block_head +:+ PyStr.nl +:+ block_body +:+ PyStr.nl.

(** A block that leaves the interpreter. *)
Definition exit_body : string := "    raise SystemExit".
Definition exit_block : string :=
  block_head +:+ PyStr.nl +:+ exit_body +:+ PyStr.nl.

(** The compiler on a source that exhausts its stack, such as a sum of a
    hundred thousand terms. *)
Definition overflowing_compile (source filename symbol : string) : compiled :=
  Fails RecursionError.

(** Sources not listed are answered as incomplete; none is submitted
    below. *)
Definition sample_compile (source filename symbol : string) : compiled :=
  if String.eqb source "x = 1" then
    Complete (Code [Bind "x" (VObj "1")] Returns)
  else if String.eqb source "import os" then
    Complete (Code [Bind "os" (VModule "os")] Returns)
  else if String.eqb source "1/0" then
    Complete (Code [] (Raises ZeroDivisionError [Frame filename 1 "<module>" "" None]))
  else if String.eqb source "plot(x)" then
    Complete (Code [] (Raises NameError [Frame filename 1 "<module>" "" None]))
  else if String.eqb source "raise SystemExit" then
    Complete (Code [] (Exits SystemExit))
  else if String.eqb source block_head then Incomplete
  else if String.eqb source (block_head +:+ PyStr.nl +:+ block_body) then Incomplete
  else if String.eqb source block then
    Complete (Code [Bind "x" (VObj "1")] Returns)
  else if String.eqb source (block_head +:+ PyStr.nl +:+ exit_body) then Incomplete
  else if String.eqb source exit_block then
    Complete (Code [] (Exits SystemExit))
  else if String.eqb source "x = = 1" then
    Invalid (SyntaxError filename) codeop_frames
  else if String.eqb source (block_head +:+ PyStr.nl +:+ "del x") then
    Invalid (IndentationError filename) codeop_frames
  else Incomplete.

Definition sample_render (v : value) : string :=
  match v with
  | VObj r => r
  | VModule n => "<module '" +:+ n +:+ "'>"
  | VExc e => exc_msg e
  | _ => "[]"
  end.

(** ** Facts about the string functions *)

Module PyStrFacts.
Import PyStr.

Lemma app_cons (a : ascii) (s t : string) : String a s +:+ t = String a (s +:+ t).
Proof. reflexivity. Qed.

Lemma app_empty_l (s : string) : "" +:+ s = s.
Proof. reflexivity. Qed.

Lemma app_empty_r (s : string) : s +:+ "" = s.
Proof. induction s as [|a s IH]; [reflexivity|]. rewrite app_cons, IH. reflexivity. Qed.

Lemma app_assoc (s t u : string) : (s +:+ t) +:+ u = s +:+ t +:+ u.
Proof.
  induction s as [|a s IH]; [reflexivity|].
  rewrite !app_cons, IH. reflexivity.
Qed.

Lemma join_app (l k : list string) : join (l ++ k)%list = join l +:+ join k.
Proof.
  induction l as [|x l IH]; simpl; [reflexivity|].
  rewrite IH, app_assoc. reflexivity.
Qed.

Lemma join_singleton (s : string) : join [s] = s.
Proof. simpl. apply app_empty_r. Qed.

Lemma contains_app (c : ascii) (s t : string) :
  contains c (s +:+ t) = contains c s || contains c t.
Proof.
  induction s as [|a s IH]; [reflexivity|].
  rewrite app_cons. simpl. rewrite IH. apply orb_assoc.
Qed.

(** [rsplit] at the last occurrence: what comes back holds no [c], and
    the string is some text, then [c], then what comes back. *)
Lemma rsplit1_last_spec (c : ascii) (s : string) :
  contains c s = true ->
  (exists before, s = before +:+ String c (rsplit1_last c s))
  /\ contains c (rsplit1_last c s) = false.
Proof.
  induction s as [|a s IH]; simpl; [discriminate|].
  destruct (contains c s) eqn:Hs.
  - intros _. destruct (IH eq_refl) as [[before Hb] Hno]. split; [|exact Hno].
    exists (String a before). rewrite app_cons. f_equal. exact Hb.
  - rewrite orb_false_r. intros Ha. rewrite Ha.
    apply Ascii.eqb_eq in Ha. subst a. split; [|exact Hs].
    exists "". reflexivity.
Qed.

Lemma is_blank_app (s t : string) : is_blank (s +:+ t) = is_blank s && is_blank t.
Proof.
  induction s as [|a s IH]; [reflexivity|].
  rewrite app_cons. simpl. rewrite IH. apply andb_assoc.
Qed.

(** The last character is not white space. *)
Fixpoint ends_visible (s : string) : bool :=
  match s with
  | "" => false
  | String a s' =>
      match s' with
      | "" => negb (is_space a)
      | _ => ends_visible s'
      end
  end.

Lemma ends_visible_not_blank (s : string) : ends_visible s = true -> is_blank s = false.
Proof.
  induction s as [|a s IH]; simpl; [discriminate|].
  destruct s as [|b s].
  - destruct (is_space a); [discriminate | reflexivity].
  - intros H. rewrite (IH H). apply andb_false_r.
Qed.

Lemma rstrip_ends_visible (s : string) : rstrip s = "" \/ ends_visible (rstrip s) = true.
Proof.
  induction s as [|a s IH]; simpl; [left; reflexivity|].
  destruct IH as [-> | IH].
  - destruct (is_space a) eqn:Ha; [left; reflexivity|].
    right. simpl. rewrite Ha. reflexivity.
  - right. destruct (rstrip s) as [|b r]; [discriminate|]. exact IH.
Qed.

Lemma rsplit1_last_ends_visible (c : ascii) (s : string) :
  is_space c = true ->
  ends_visible s = true -> ends_visible (rsplit1_last c s) = true.
Proof.
  intros Hc. induction s as [|a s IH]; [discriminate|].
  intros Hs. simpl rsplit1_last.
  destruct (contains c s) eqn:Hin.
  - apply IH. destruct s as [|b s]; [discriminate|]. exact Hs.
  - destruct (Ascii.eqb a c) eqn:Hac; [|exact Hs].
    apply Ascii.eqb_eq in Hac. subst a.
    destruct s as [|b s]; [|exact Hs].
    simpl in Hs. rewrite Hc in Hs. discriminate.
Qed.

(** [rstrip] only touches the end: a prefix survives when something
    visible follows it. *)
Lemma rstrip_app (s t : string) : rstrip t <> "" -> rstrip (s +:+ t) = s +:+ rstrip t.
Proof.
  intros Ht. induction s as [|a s IH]; [reflexivity|].
  rewrite !app_cons. simpl. rewrite IH.
  destruct (s +:+ rstrip t) as [|b r] eqn:E; [|reflexivity].
  destruct s; [|discriminate]. rewrite app_empty_l in E. contradiction.
Qed.

Lemma rstrip_cons_visible (a : ascii) (s : string) :
  is_space a = false -> exists r, rstrip (String a s) = String a r.
Proof.
  intros Ha. simpl. rewrite Ha.
  destruct (rstrip s) as [|b r]; eauto.
Qed.

(** The first character of a Python identifier: a letter or [_]. *)
Definition starts_like_name (s : string) : bool :=
  match s with
  | "" => false
  | String a _ => is_letter a || Ascii.eqb a "_"
  end.

Lemma name_start_not_space (a : ascii) :
  is_letter a || Ascii.eqb a "_" = true -> is_space a = false.
Proof.
  destruct a as [[] [] [] [] [] [] [] []]; vm_compute; intros H;
    first [reflexivity | discriminate H].
Qed.

Lemma starts_like_name_app (s t : string) :
  starts_like_name s = true -> starts_like_name (s +:+ t) = true.
Proof. destruct s; [discriminate|]. rewrite app_cons. auto. Qed.

End PyStrFacts.

(** ** Properties *)

(** *** NamespaceStore *)

(** A name the suppression rule keeps out of the object registry. *)
Definition private_name (key : string) : bool :=
  negb (Nat.eqb (String.length key) 1) && String.eqb (PyStr.slice_to 2 key) "__".

(** C1 (as amended): a binding of [v] under [key] through [setitem]
    notifies at most one registry, never both.  With the suppression flag
    off it notifies exactly one: the module registry for a module, the
    object registry otherwise.  With the flag on, a module is dropped, and so
    is a non-module whose name is longer than one character and starts with
    two underscores; any other non-module goes to the object registry. *)
Theorem setitem_notifies_at_most_one (key : string) (v : value) (st : interp) :
  let st' := setitem key v st in
  let dropped := prevent_module_import st && (ismodule v || private_name key) in
  trace st' = (trace st ++
    (if dropped then []
     else [if ismodule v then EvModules key v else EvObjects key v]))%list
  /\ modules st' =
       (if ismodule v && negb dropped then <[key:=v]> (modules st) else modules st)
  /\ objects st' =
       (if negb (ismodule v) && negb dropped then <[key:=v]> (objects st) else objects st).
Proof.
  cbv zeta. unfold setitem, private_name.
  destruct (ismodule v), (prevent_module_import st),
    (Nat.eqb (String.length key) 1),
    (String.eqb (PyStr.slice_to 2 key) "__");
    simpl; rewrite ?List.app_nil_r; auto.
Qed.

(** C1, as stated, fails: running [import os] through [exec] binds a module
    while the flag is on, and neither registry hears of it. *)
Lemma suppressed_import_notifies_neither :
  let st := with_flag true initial in
  setitem "os" (VModule "os") st = st
  /\ let st' := final_state (exec sample_compile sample_render "import os" "<file>" initial) in
     locals st' !! "os" = Some (VModule "os")
     /\ modules st' = ∅ /\ objects st' = ∅
     /\ trace st' =
          [EvSetFlag true; EvSync; EvPreprocess "import os";
           EvCompile "import os" "<file>" "exec";
           EvExec (Code [Bind "os" (VModule "os")] Returns);
           EvPostprocess "import os"; EvSetFlag false].
Proof. vm_compute. auto. Qed.

(** *** OutputRouter *)

(** The single items for which [write] does nothing. *)
Inductive insignificant_item : value -> Prop :=
| quiet_zeros (a : list Z) : Forall (fun x => x = 0%Z) a -> insignificant_item (VArray a)
| quiet_bell : insignificant_item (VStr PyStr.bell)
| quiet_newline : insignificant_item (VStr PyStr.nl)
| quiet_space : insignificant_item (VStr " ")
| quiet_empty : insignificant_item (VStr "")
| quiet_none : insignificant_item VNone.

Lemma ndarray_any_zeros (a : list Z) :
  Forall (fun x => x = 0%Z) a -> ndarray_any a = false.
Proof.
  induction 1 as [|x a Hx _ IH]; simpl.
  - reflexivity.
  - subst x. exact IH.
Qed.

Lemma insignificant_item_quiet (v : value) : insignificant_item v -> quiet v = true.
Proof.
  destruct 1; try reflexivity.
  unfold quiet; simpl. rewrite ndarray_any_zeros by assumption. reflexivity.
Qed.

(** C7: [write] leaves the interpreter, and so the display buffer, as it
    was (1) whenever the suppression flag is on, and (2) on a call with one
    item that is an all-zero or empty array, the bell, the newline, a
    space, the empty string or [None]. *)
Theorem write_noop (render : value -> string) (args : list value) (tg : tags) (st : interp) :
  prevent_module_import st = true
  \/ (exists a, args = [a] /\ insignificant_item a) ->
  write render args tg st = st.
Proof.
  intros [Hflag | (a & -> & Ha)]; unfold write.
  - rewrite Hflag. reflexivity.
  - rewrite (insignificant_item_quiet a Ha).
    destruct (prevent_module_import st); reflexivity.
Qed.

Lemma write_noop_witness :
  write sample_render [VStr "hello"] (TTuple []) (with_flag true initial)
    = with_flag true initial
  /\ write sample_render [VArray [0%Z; 0%Z]] (TTuple []) initial = initial.
Proof.
  split.
  - apply write_noop. left. reflexivity.
  - apply write_noop. right. exists (VArray [0%Z; 0%Z]). split.
    + reflexivity.
    + constructor. repeat constructor.
Defined.

Section OutputFacts.

Variable render : value -> string.

Import PyStr PyStrFacts.

(** The tags in force once [write_item] has looked at the text [s]. *)
Definition tags_for (s : string) (tg : tags) : tags :=
  if re_traceback s || re_exception s then TTuple ("red" :: iter_tags tg) else tg.

Lemma write_item_cr (n : nat) (st : interp) (tg : tags) (s : string) :
  contains chr_cr s = true ->
  write_item render n (st, tg) (VStr s) =
    (let rest := rsplit1_last chr_cr s in
     let st1 :=
       text_insert rest (tk_tags (tags_for rest tg))
         (text_insert nl [] (text_delete (cursor_position st) st)) in
     (if Nat.ltb 1 n then text_insert tab [] st1 else st1,
      tags_for rest tg)).
Proof.
  intros H. unfold write_item, tags_for. simpl. rewrite H. simpl.
  destruct (re_traceback _ || re_exception _); reflexivity.
Qed.

Lemma write_item_plain (n : nat) (st : interp) (tg : tags) (s : string) :
  contains chr_cr s = false ->
  write_item render n (st, tg) (VStr s) =
    (let st1 := text_insert s (tk_tags (tags_for s tg)) st in
     (if Nat.ltb 1 n then text_insert tab [] st1 else st1,
      tags_for s tg)).
Proof.
  intros H. unfold write_item, tags_for. simpl. rewrite H. simpl.
  destruct (re_traceback _ || re_exception _); reflexivity.
Qed.

Lemma quiet_has_no_cr (s : string) :
  contains chr_cr s = true -> quiet (VStr s) = false.
Proof.
  intros H. unfold quiet, insignificant. simpl.
  destruct (String.eqb_spec s bell) as [-> | _]; [discriminate H|].
  destruct (String.eqb_spec s nl) as [-> | _]; [discriminate H|].
  destruct (String.eqb_spec s " ") as [-> | _]; [discriminate H|].
  destruct (String.eqb_spec s "") as [-> | _]; [discriminate H|].
  reflexivity.
Qed.

(** What [write] does on one string once the two early returns are
    passed. *)
Lemma write_single (s : string) (tg : tags) (st : interp) :
  prevent_module_import st = false ->
  quiet (VStr s) = false ->
  write render [VStr s] tg st =
    (let st1 := fst (write_item render 1 (st, tg) (VStr s)) in
     log EvPromptMove (log EvSee
       (if negb (is_blank (display st1)) then text_insert nl [] st1 else st1))).
Proof.
  intros Hflag Hq. unfold write. rewrite Hflag, Hq. reflexivity.
Qed.

(** C8: a string item holding a carriage return is cut down to what
    follows its last carriage return; before that remainder is inserted,
    the display is erased from the recorded cursor position to the end and
    a newline is put there.  A [write] of that one string (the flag being
    off) leaves the display as: what stood before the cursor position, a
    newline, the remainder, and the closing newline of a non-blank
    display. *)
Theorem write_carriage_return (s : string) (tg : tags) (st : interp) :
  contains chr_cr s = true ->
  let rest := rsplit1_last chr_cr s in
  let kept := slice_to (cursor_position st) (display st) in
  (exists before, s = before +:+ cr +:+ rest)
  /\ contains chr_cr rest = false
  /\ (forall n,
        let st1 := fst (write_item render n (st, tg) (VStr s)) in
        trace st1 =
          (trace st ++
           [EvDelete (cursor_position st); EvInsert nl [];
            EvInsert rest (tk_tags (tags_for rest tg))] ++
           (if Nat.ltb 1 n then [EvInsert tab []] else []))%list
        /\ display st1 = kept +:+ nl +:+ rest +:+ (if Nat.ltb 1 n then tab else ""))
  /\ (prevent_module_import st = false ->
      display (write render [VStr s] tg st) =
        (let shown := kept +:+ nl +:+ rest in
         if is_blank shown then shown else shown +:+ nl)).
Proof.
  intros H rest kept.
  destruct (rsplit1_last_spec chr_cr s H) as [Hsplit Hno].
  assert (Hitem : forall n,
    let st1 := fst (write_item render n (st, tg) (VStr s)) in
    trace st1 =
      (trace st ++
       [EvDelete (cursor_position st); EvInsert nl [];
        EvInsert rest (tk_tags (tags_for rest tg))] ++
       (if Nat.ltb 1 n then [EvInsert tab []] else []))%list
    /\ display st1 = kept +:+ nl +:+ rest +:+ (if Nat.ltb 1 n then tab else "")).
  { intros n. cbv zeta. rewrite (write_item_cr n st tg s H).
    destruct (Nat.ltb 1 n); simpl; rewrite <- !List.app_assoc; simpl;
      (split; [reflexivity|]); subst rest kept;
      rewrite ?app_assoc, ?app_empty_r; reflexivity. }
  split; [exact Hsplit|]. split; [exact Hno|]. split; [exact Hitem|].
  intros Hflag. rewrite (write_single s tg st Hflag (quiet_has_no_cr s H)).
  cbv zeta. set (st1 := fst (write_item render 1 (st, tg) (VStr s))).
  assert (Hd : display st1 = kept +:+ nl +:+ rest).
  { transitivity (kept +:+ nl +:+ rest +:+ "").
    - exact (proj2 (Hitem 1)).
    - rewrite app_empty_r. reflexivity. }
  rewrite Hd. destruct (is_blank (kept +:+ nl +:+ rest)); simpl.
  - exact Hd.
  - rewrite Hd, !app_assoc. reflexivity.
Qed.

End OutputFacts.

(** The example of the specification: writing [abc], a carriage return,
    [def] after the text [xyz] with the cursor recorded after it. *)
Lemma write_carriage_return_witness :
  display (write sample_render [VStr ("abc" +:+ PyStr.cr +:+ "def")] (TTuple [])
             (with_cursor 4 (with_display ("xyz" +:+ PyStr.nl) initial)))
  = "xyz" +:+ PyStr.nl +:+ PyStr.nl +:+ "def" +:+ PyStr.nl.
Proof.
  exact (proj2 (proj2 (proj2
    (write_carriage_return sample_render ("abc" +:+ PyStr.cr +:+ "def") (TTuple [])
       (with_cursor 4 (with_display ("xyz" +:+ PyStr.nl) initial)) eq_refl)))
    eq_refl).
Defined.

(** *** What the pieces leave alone *)

(** The code objects run so far, and the sources handed to the compiler. *)
Definition executions (t : list event) : list code :=
  omap (fun ev => match ev with EvExec c => Some c | _ => None end) t.

Definition compilations (t : list event) : list string :=
  omap (fun ev => match ev with EvCompile src _ _ => Some src | _ => None end) t.

(** [steady st st']: from [st] to [st'] the input buffer, the history, the
    flag and the cursor position are as they were, and the trace has only
    grown, by events that are neither a compilation nor an execution. *)
Definition steady (st st' : interp) : Prop :=
  buffer st' = buffer st
  /\ history st' = history st
  /\ prevent_module_import st' = prevent_module_import st
  /\ cursor_position st' = cursor_position st
  /\ exists l, trace st' = (trace st ++ l)%list
               /\ executions l = [] /\ compilations l = [].

Lemma steady_refl (st : interp) : steady st st.
Proof.
  repeat split. exists []. rewrite List.app_nil_r. auto.
Qed.

Lemma steady_trans (st1 st2 st3 : interp) :
  steady st1 st2 -> steady st2 st3 -> steady st1 st3.
Proof.
  intros (Hb & Hh & Hf & Hc & l & Ht & He & Hs)
         (Hb' & Hh' & Hf' & Hc' & l' & Ht' & He' & Hs').
  repeat split; try congruence.
  exists (l ++ l')%list. rewrite Ht', Ht, <- List.app_assoc.
  unfold executions, compilations in *. rewrite !omap_app.
  rewrite He, He', Hs, Hs'. auto.
Qed.

Lemma steady_text_insert (s : string) (tg : list string) (st st' : interp) :
  steady st st' -> steady st (text_insert s tg st').
Proof.
  intros H. apply (steady_trans _ _ _ H).
  repeat split. exists [EvInsert s tg]. auto.
Qed.

Lemma steady_text_delete (n : nat) (st st' : interp) :
  steady st st' -> steady st (text_delete n st').
Proof.
  intros H. apply (steady_trans _ _ _ H).
  repeat split. exists [EvDelete n]. auto.
Qed.

Lemma steady_objects_setitem (k : string) (v : value) (st : interp) :
  steady st (objects_setitem k v st).
Proof. repeat split. exists [EvObjects k v]. auto. Qed.

Lemma steady_modules_setitem (k : string) (v : value) (st : interp) :
  steady st (modules_setitem k v st).
Proof. repeat split. exists [EvModules k v]. auto. Qed.

Lemma steady_with_locals (m : gmap string value) (st : interp) :
  steady st (with_locals m st).
Proof. repeat split. exists []. simpl. rewrite List.app_nil_r. auto. Qed.

Create HintDb steady.
#[local] Hint Resolve steady_refl steady_text_insert steady_text_delete
  steady_objects_setitem steady_modules_setitem : steady.

Section ExecutionFacts.

Variable compile : string -> string -> string -> compiled.
Variable render : value -> string.

Import PyStr PyStrFacts.

Lemma steady_setitem (key : string) (v : value) (st : interp) :
  steady st (setitem key v st).
Proof.
  unfold setitem.
  repeat match goal with |- context [if ?b then _ else _] => destruct b end;
    auto with steady.
Qed.

Lemma steady_write_item (n : nat) (acc : interp * tags) (r : value) :
  steady (fst acc) (fst (write_item render n acc r)).
Proof.
  destruct acc as [st tg]. unfold write_item.
  destruct (is_str r && contains chr_cr (py_str render r)).
  - destruct (Nat.ltb 1 n); simpl; auto 6 with steady.
  - destruct r, (Nat.ltb 1 n); simpl; auto with steady.
Qed.

Lemma steady_write_items (n : nat) (args : list value) (acc : interp * tags) :
  steady (fst acc) (fst (fold_left (write_item render n) args acc)).
Proof.
  revert acc. induction args as [|r args IH]; intros acc; simpl.
  - apply steady_refl.
  - eapply steady_trans; [apply steady_write_item | apply IH].
Qed.

Lemma steady_write (args : list value) (tg : tags) (st : interp) :
  steady st (write render args tg st).
Proof.
  unfold write.
  destruct (prevent_module_import st); [apply steady_refl|].
  destruct (match args with [a] => quiet a | _ => false end); [apply steady_refl|].
  pose proof (steady_write_items (length args) args (st, tg)) as H.
  simpl in H.
  set (st1 := fst (fold_left (write_item render (length args)) args (st, tg))) in *.
  assert (H2 : steady st
    (if negb (is_blank (display st1)) then text_insert nl [] st1 else st1)).
  { destruct (negb (is_blank (display st1))); auto with steady. }
  eapply steady_trans; [exact H2|].
  repeat split. exists [EvSee; EvPromptMove].
  simpl. rewrite <- List.app_assoc. auto.
Qed.

Lemma write_item_stores (n : nat) (acc : interp * tags) (r : value) :
  let st' := fst (write_item render n acc r) in
  locals st' = locals (fst acc)
  /\ objects st' = objects (fst acc)
  /\ modules st' = modules (fst acc).
Proof.
  destruct acc as [st tg]. unfold write_item.
  destruct (is_str r && contains chr_cr (py_str render r)).
  - destruct (Nat.ltb 1 n); simpl; auto.
  - destruct r, (Nat.ltb 1 n); simpl; auto.
Qed.

Lemma write_items_stores (n : nat) (args : list value) (acc : interp * tags) :
  let st' := fst (fold_left (write_item render n) args acc) in
  locals st' = locals (fst acc)
  /\ objects st' = objects (fst acc)
  /\ modules st' = modules (fst acc).
Proof.
  revert acc. induction args as [|r args IH]; intros acc; simpl; [auto|].
  destruct (IH (write_item render n acc r)) as (H1 & H2 & H3).
  destruct (write_item_stores n acc r) as (K1 & K2 & K3).
  simpl in *. repeat split; congruence.
Qed.

Lemma write_registries (args : list value) (tg : tags) (st : interp) :
  modules (write render args tg st) = modules st
  /\ objects (write render args tg st) = objects st.
Proof.
  unfold write.
  destruct (prevent_module_import st); [auto|].
  destruct (match args with [a] => quiet a | _ => false end); [auto|].
  destruct (write_items_stores (length args) args (st, tg)) as (_ & H2 & H3).
  simpl in H2, H3.
  destruct (negb (is_blank _)); simpl; auto.
Qed.

Lemma steady_run_action (st : interp) (a : action) : steady st (run_action render st a).
Proof.
  destruct a as [n v | args]; simpl.
  - eapply steady_trans; [apply (steady_with_locals (<[n:=v]> (locals st)))|].
    apply steady_setitem.
  - apply steady_write.
Qed.

Lemma steady_run_actions (l : list action) (st : interp) :
  steady st (fold_left (run_action render) l st).
Proof.
  revert st. induction l as [|a l IH]; intros st; simpl.
  - apply steady_refl.
  - eapply steady_trans; [apply steady_run_action | apply IH].
Qed.

Lemma write_while_suppressed (args : list value) (tg : tags) (st : interp) :
  prevent_module_import st = true -> write render args tg st = st.
Proof. intros H. unfold write. rewrite H. reflexivity. Qed.

(** While the flag is on, user code cannot touch the display. *)
Lemma run_actions_suppressed (l : list action) (st : interp) :
  prevent_module_import st = true ->
  display (fold_left (run_action render) l st) = display st.
Proof.
  revert st. induction l as [|a l IH]; intros st Hflag; simpl; [reflexivity|].
  assert (Hstep : display (run_action render st a) = display st).
  { destruct a as [n v | args]; simpl.
    - unfold setitem. simpl. rewrite Hflag. simpl.
      repeat match goal with |- context [if ?b then _ else _] => destruct b end;
        reflexivity.
    - rewrite write_while_suppressed by exact Hflag. reflexivity. }
  rewrite IH, Hstep; [reflexivity|].
  destruct (steady_run_action st a) as (_ & _ & Hf & _). congruence.
Qed.

(** *** The methods, case by case *)

#[local] Arguments slice_to : simpl never.
#[local] Arguments slice_from : simpl never.
#[local] Arguments join : simpl never.
#[local] Arguments last_line_start : simpl never.
#[local] Arguments String.eqb : simpl never.


(** The interpreter when the exception handler of [runcode] is reached. *)
Definition after_actions (c : code) (st : interp) : interp :=
  fold_left (run_action render) (acts c) (log (EvExec c) st).

Lemma runcode_eq (c : code) (st : interp) :
  runcode render c st =
    match final c with
    | Returns => Ok tt (after_actions c st)
    | Raises e tb =>
        Ok tt (log (EvSetView "console" true)
                 (write render [VStr (traceback_text e tb)] (TStr "red")
                    (after_actions c st)))
    | Exits e => Exn e (after_actions c st)
    end.
Proof.
  unfold runcode, after_actions, bind, lift, ret, raise.
  destruct (final c); reflexivity.
Qed.

(** The interpreter when [push] reaches the compiler. *)
Definition before_compile (s : string) (st : interp) : interp :=
  let source := join (buffer st ++ [s]) in
  let st1 :=
    log (EvPreprocess source)
      (synclocals (with_cursor (last_line_start (display st)) st)) in
  if String.eqb (slice_to 4 source) "plot" then log EvPrompt st1 else st1.

Lemma push_incomplete (s filename symbol : string) (st : interp) :
  let source := join (buffer st ++ [s]) in
  del_shortcut source st = false ->
  compile source filename symbol = Incomplete ->
  push compile render s filename symbol st =
    Ok tt (log EvPrompt
             (history_append s
                (with_buffer (buffer st ++ [s +:+ nl])
                   (log (EvCompile source filename symbol) (before_compile s st))))).
Proof.
  intros source Hdel Hc.
  unfold push, before_compile, bind, lift, ret, runsource. simpl.
  fold source. change (del_shortcut source _) with (del_shortcut source st).
  rewrite Hdel. unfold bind, lift. simpl.
  destruct (String.eqb (slice_to 4 source) "plot"); simpl;
    rewrite Hc; reflexivity.
Qed.

Lemma push_complete (s filename symbol : string) (c : code) (st : interp) :
  let source := join (buffer st ++ [s]) in
  del_shortcut source st = false ->
  compile source filename symbol = Complete c ->
  push compile render s filename symbol st =
    match runcode render c (log (EvCompile source filename symbol) (before_compile s st)) with
    | Ok _ st1 =>
        Ok tt (log EvPrompt
                 (with_buffer []
                    (history_extend s
                       (log (EvPostprocess source) st1))))
    | Exn e st1 => Exn e st1
    end.
Proof.
  intros source Hdel Hc.
  unfold push, before_compile, bind, lift, ret, runsource. simpl.
  fold source. change (del_shortcut source _) with (del_shortcut source st).
  rewrite Hdel. unfold bind, lift. simpl.
  destruct (String.eqb (slice_to 4 source) "plot"); simpl;
    rewrite Hc; unfold bind;
    match goal with |- context [runcode render c ?x] =>
      destruct (runcode render c x) end; reflexivity.
Qed.

Lemma push_invalid (s filename symbol : string) (e : exc) (tb : list frame) (st : interp) :
  let source := join (buffer st ++ [s]) in
  del_shortcut source st = false ->
  compile source filename symbol = Invalid e tb ->
  push compile render s filename symbol st =
    (let st1 :=
       log (EvSetView "console" true)
         (write render [VStr (traceback_text e tb)] (TStr "red")
            (log (EvCompile source filename symbol) (before_compile s st))) in
     Ok tt (log EvPrompt
              (with_buffer []
                 (history_extend s
                    (log (EvPostprocess source) st1))))).
Proof.
  intros source Hdel Hc.
  unfold push, before_compile, bind, lift, ret, runsource. simpl.
  fold source. change (del_shortcut source _) with (del_shortcut source st).
  rewrite Hdel. unfold bind, lift. simpl.
  destruct (String.eqb (slice_to 4 source) "plot"); simpl;
    rewrite Hc; reflexivity.
Qed.

Lemma push_shortcut (s filename symbol : string) (st : interp) :
  let source := join (buffer st ++ [s]) in
  del_shortcut source st = true ->
  push compile render s filename symbol st =
    Ok tt (log EvPrompt
             (log (EvObjectsDel (slice_from 4 source))
                (with_objects (delete (slice_from 4 source) (objects st))
                   (log (EvPreprocess source)
                      (synclocals (with_cursor (last_line_start (display st)) st)))))).
Proof.
  intros source Hdel.
  unfold push, bind, lift, ret. simpl.
  fold source. change (del_shortcut source _) with (del_shortcut source st).
  rewrite Hdel. unfold bind, lift, objects_delitem. simpl.
  unfold del_shortcut in Hdel. apply andb_true_iff in Hdel as [_ Hin].
  apply bool_decide_eq_true in Hin. destruct Hin as [v Hv].
  rewrite Hv. reflexivity.
Qed.

End ExecutionFacts.

(** *** TracebackPresenter *)

Section TracebackFacts.

Variable render : value -> string.

Import PyStr PyStrFacts.

Lemma name_is_not_quiet (s : string) :
  starts_like_name s = true -> quiet (VStr s) = false.
Proof.
  intros H. unfold quiet, insignificant. simpl.
  destruct (String.eqb_spec s bell) as [-> | _]; [discriminate H|].
  destruct (String.eqb_spec s nl) as [-> | _]; [discriminate H|].
  destruct (String.eqb_spec s " ") as [-> | _]; [discriminate H|].
  destruct (String.eqb_spec s "") as [-> | _]; [discriminate H|].
  reflexivity.
Qed.

Lemma red_in_tags_for (s : string) : In "red" (tk_tags (tags_for s (TStr "red"))).
Proof.
  unfold tags_for. destruct (re_traceback s || re_exception s); simpl; auto.
Qed.

(** The text [write] puts on the display for the string [s]. *)
Definition shown (s : string) : string :=
  if contains chr_cr s then rsplit1_last chr_cr s else s.

(** A [write] of one string that is not one of the ignored items and ends
    in a visible character, the flag being off. *)
Lemma write_shown (s : string) (tg : tags) (st : interp) :
  prevent_module_import st = false ->
  quiet (VStr s) = false ->
  ends_visible s = true ->
  let st' := write render [VStr s] tg st in
  display st' =
    (if contains chr_cr s
     then slice_to (cursor_position st) (display st) +:+ nl
     else display st) +:+ shown s +:+ nl
  /\ trace st' =
       (trace st ++
        (if contains chr_cr s
         then [EvDelete (cursor_position st); EvInsert nl []] else []) ++
        [EvInsert (shown s) (tk_tags (tags_for (shown s) tg));
         EvInsert nl []; EvSee; EvPromptMove])%list.
Proof.
  intros Hflag Hquiet Hend. cbv zeta.
  rewrite (write_single render s tg st Hflag Hquiet).
  unfold shown. destruct (contains chr_cr s) eqn:Hcr.
  - rewrite (write_item_cr render 1 st tg s Hcr). simpl.
    assert (Hvis : is_blank
      ((slice_to (cursor_position st) (display st) +:+ nl)
       +:+ rsplit1_last chr_cr s) = false).
    { rewrite is_blank_app, (ends_visible_not_blank (rsplit1_last chr_cr s)).
      - apply andb_false_r.
      - apply rsplit1_last_ends_visible; [reflexivity | exact Hend]. }
    rewrite Hvis. simpl. rewrite <- !List.app_assoc. simpl.
    rewrite !app_assoc. auto.
  - rewrite (write_item_plain render 1 st tg s Hcr). simpl.
    assert (Hvis : is_blank (display st +:+ s) = false).
    { rewrite is_blank_app, (ends_visible_not_blank s Hend). apply andb_false_r. }
    rewrite Hvis. simpl. rewrite <- !List.app_assoc. simpl.
    rewrite !app_assoc. auto.
Qed.

Lemma write_visible (s : string) (tg : tags) (st : interp) :
  prevent_module_import st = false ->
  starts_like_name s = true ->
  ends_visible s = true ->
  let st' := write render [VStr s] tg st in
  display st' =
    (if contains chr_cr s
     then slice_to (cursor_position st) (display st) +:+ nl
     else display st) +:+ shown s +:+ nl
  /\ trace st' =
       (trace st ++
        (if contains chr_cr s
         then [EvDelete (cursor_position st); EvInsert nl []] else []) ++
        [EvInsert (shown s) (tk_tags (tags_for (shown s) tg));
         EvInsert nl []; EvSee; EvPromptMove])%list.
Proof.
  intros Hflag Hname Hend.
  apply write_shown; [exact Hflag | apply name_is_not_quiet; exact Hname | exact Hend].
Qed.

(** **** The stack of a traceback *)














(** **** The text of a traceback *)

(** The lines for the frames of a traceback: nothing for no frame, else
    the header and the formatted stack. *)
Definition stack_text (frames : list frame) : string :=
  match frames with
  | [] => ""
  | _ => traceback_header +:+ join (format_stack frames)
  end.

Lemma join_format_one (e : exc) (tb : list frame) :
  join (format_one e tb) = stack_text tb +:+ join (format_exception_only e).
Proof.
  unfold format_one, stack_text. destruct tb as [|f tb]; [reflexivity|].
  change ((traceback_header :: format_stack (f :: tb)) ++ format_exception_only e)%list
    with (traceback_header :: (format_stack (f :: tb) ++ format_exception_only e))%list.
  change (join (traceback_header :: (format_stack (f :: tb) ++ format_exception_only e))%list)
    with (traceback_header +:+ join (format_stack (f :: tb) ++ format_exception_only e)%list).
  rewrite join_app, app_assoc. reflexivity.
Qed.

Lemma rstrip_inside (A Q : string) (a : ascii) :
  is_space a = false -> exists r, rstrip (A +:+ String a Q) = A +:+ String a r.
Proof.
  intros Ha. destruct (rstrip_cons_visible a Q Ha) as [r Hr].
  exists r. rewrite rstrip_app; rewrite Hr; [reflexivity | discriminate].
Qed.

(** The lines of the exception itself hold the first character of the
    name of its class. *)
Lemma exception_only_shape (e : exc) :
  starts_like_name (exc_type e) = true ->
  exists A a Q,
    join (format_exception_only e) = A +:+ String a Q
    /\ is_letter a || Ascii.eqb a "_" = true.
Proof.
  unfold format_exception_only, final_line.
  destruct (exc_type e) as [|a t]; [discriminate|].
  simpl starts_like_name. intros Ha.
  exists (join (exc_where e)), a,
    ((t +:+ (if String.eqb (exc_msg e) "" then "" else ": " +:+ exc_msg e) +:+ nl)
     +:+ join (exc_notes e)).
  split; [|exact Ha].
  rewrite join_app.
  change (join ([String a t +:+ (if String.eqb (exc_msg e) "" then ""
                                 else ": " +:+ exc_msg e) +:+ nl] ++ exc_notes e)%list)
    with ((String a t +:+ (if String.eqb (exc_msg e) "" then ""
                           else ": " +:+ exc_msg e) +:+ nl) +:+ join (exc_notes e)).
  rewrite !app_cons. reflexivity.
Qed.

Lemma rstrip_exception_only (e : exc) :
  starts_like_name (exc_type e) = true ->
  exists A a r,
    rstrip (join (format_exception_only e)) = A +:+ String a r
    /\ is_letter a || Ascii.eqb a "_" = true.
Proof.
  intros Hname. destruct (exception_only_shape e Hname) as (A & a & Q & HJ & Ha).
  destruct (rstrip_inside A Q a (name_start_not_space a Ha)) as [r Hr].
  exists A, a, r. rewrite HJ. auto.
Qed.

Lemma app_not_empty (A r : string) (a : ascii) : A +:+ String a r <> "".
Proof. destruct A; discriminate. Qed.

(** The text handed to [write]: what comes before the exception in its
    chain, the stack of the frames given, and the lines of the exception
    itself, right-stripped. *)
Lemma traceback_text_eq (e : exc) (frames : list frame) :
  starts_like_name (exc_type e) = true ->
  traceback_text e frames =
    join (format_chain e) +:+ stack_text frames
    +:+ rstrip (join (format_exception_only e)).
Proof.
  intros Hname. destruct (rstrip_exception_only e Hname) as (A & a & r & Hr & _).
  unfold traceback_text, format_exception.
  rewrite join_app, join_format_one, <- app_assoc, rstrip_app.
  - apply app_assoc.
  - rewrite Hr. apply app_not_empty.
Qed.

Lemma not_quiet_inside (P r : string) (a : ascii) :
  is_letter a || Ascii.eqb a "_" = true -> quiet (VStr (P +:+ String a r)) = false.
Proof.
  intros Ha. destruct P as [|b P].
  - apply name_is_not_quiet. exact Ha.
  - rewrite app_cons. unfold quiet, insignificant. simpl.
    destruct (String.eqb_spec (P +:+ String a r) "") as [E | _];
      [exfalso; exact (app_not_empty _ _ _ E)|].
    destruct (Ascii.eqb b chr_bell), (Ascii.eqb b chr_nl), (Ascii.eqb b " ");
      reflexivity.
Qed.

(** The text of a traceback is never one of the items [write] ignores,
    and it ends in a visible character. *)
Lemma traceback_text_visible (e : exc) (frames : list frame) :
  starts_like_name (exc_type e) = true ->
  quiet (VStr (traceback_text e frames)) = false
  /\ ends_visible (traceback_text e frames) = true.
Proof.
  intros Hname.
  destruct (rstrip_exception_only e Hname) as (A & a & r & Hr & Ha).
  assert (Ht : traceback_text e frames
               = (join (format_chain e) +:+ stack_text frames +:+ A) +:+ String a r).
  { rewrite (traceback_text_eq e frames Hname), Hr, !app_assoc. reflexivity. }
  split.
  - rewrite Ht. apply not_quiet_inside. exact Ha.
  - destruct (rstrip_ends_visible (join (format_exception e frames))) as [H | H];
      [|exact H].
    exfalso. fold (traceback_text e frames) in H. rewrite Ht in H.
    exact (app_not_empty _ _ _ H).
Qed.


End TracebackFacts.





(** *** ExecutionEngine *)

Lemma steady_log (e : event) (st st' : interp) :
  executions [e] = [] -> compilations [e] = [] ->
  steady st st' -> steady st (log e st').
Proof.
  intros He Hc H. apply (steady_trans _ _ _ H).
  repeat split. exists [e]. auto.
Qed.

(** The writes of the flag and the calls of [synclocals] and of the two
    hooks. *)
Definition is_hook (ev : event) : bool :=
  match ev with
  | EvSetFlag _ | EvSync | EvPreprocess _ | EvPostprocess _ => true
  | _ => false
  end.

Definition hook_calls (t : list event) : list event := List.filter is_hook t.

Lemma hook_calls_app (l k : list event) :
  hook_calls (l ++ k) = (hook_calls l ++ hook_calls k)%list.
Proof. apply List.filter_app. Qed.

(** The code a source compiles to, if it is complete. *)
Definition compiled_code (r : compiled) : list code :=
  match r with Complete c => [c] | _ => [] end.

Section EngineFacts.

Variable compile : string -> string -> string -> compiled.
Variable render : value -> string.

Import PyStr PyStrFacts.

#[local] Arguments slice_to : simpl never.
#[local] Arguments slice_from : simpl never.
#[local] Arguments join : simpl never.
#[local] Arguments last_line_start : simpl never.
#[local] Arguments String.eqb : simpl never.

Ltac no_hook :=
  simpl; rewrite ?hook_calls_app; simpl; rewrite ?List.app_nil_r; reflexivity.

Lemma setitem_no_hook (key : string) (v : value) (st : interp) :
  hook_calls (trace (setitem key v st)) = hook_calls (trace st).
Proof.
  unfold setitem.
  repeat match goal with |- context [if ?b then _ else _] => destruct b end; no_hook.
Qed.

Lemma write_item_no_hook (n : nat) (acc : interp * tags) (r : value) :
  hook_calls (trace (fst (write_item render n acc r))) = hook_calls (trace (fst acc)).
Proof.
  destruct acc as [st tg]. unfold write_item.
  destruct (is_str r && contains chr_cr (py_str render r)).
  - destruct (Nat.ltb 1 n); no_hook.
  - destruct r, (Nat.ltb 1 n); no_hook.
Qed.

Lemma write_items_no_hook (n : nat) (args : list value) (acc : interp * tags) :
  hook_calls (trace (fst (fold_left (write_item render n) args acc)))
  = hook_calls (trace (fst acc)).
Proof.
  revert acc. induction args as [|r args IH]; intros acc; simpl; [reflexivity|].
  rewrite IH. apply write_item_no_hook.
Qed.

Lemma write_no_hook (args : list value) (tg : tags) (st : interp) :
  hook_calls (trace (write render args tg st)) = hook_calls (trace st).
Proof.
  unfold write.
  destruct (prevent_module_import st); [reflexivity|].
  destruct (match args with [a] => quiet a | _ => false end); [reflexivity|].
  pose proof (write_items_no_hook (length args) args (st, tg)) as H.
  simpl in H.
  destruct (negb (is_blank _)); simpl; rewrite !hook_calls_app, H; simpl;
    rewrite ?List.app_nil_r; reflexivity.
Qed.

Lemma run_actions_no_hook (l : list action) (st : interp) :
  hook_calls (trace (fold_left (run_action render) l st)) = hook_calls (trace st).
Proof.
  revert st. induction l as [|a l IH]; intros st; simpl; [reflexivity|].
  rewrite IH. destruct a as [n v | args]; simpl.
  - rewrite setitem_no_hook. reflexivity.
  - apply write_no_hook.
Qed.

(** Whatever the code does, [runcode] leaves the console's bookkeeping
    alone and neither compiles nor starts a second execution. *)
Lemma runcode_steady (c : code) (st : interp) :
  steady (log (EvExec c) st) (final_state (runcode render c st)).
Proof.
  rewrite runcode_eq. unfold after_actions.
  pose proof (steady_run_actions render (acts c) (log (EvExec c) st)) as Hs.
  destruct (final c) as [|e tb|e]; simpl; try exact Hs.
  apply steady_log; [reflexivity..|].
  eapply steady_trans; [exact Hs | apply steady_write].
Qed.

Lemma runcode_no_hook (c : code) (st : interp) :
  hook_calls (trace (final_state (runcode render c st))) = hook_calls (trace st).
Proof.
  rewrite runcode_eq. unfold after_actions.
  pose proof (run_actions_no_hook (acts c) (log (EvExec c) st)) as H.
  simpl in H. rewrite hook_calls_app in H. simpl in H. rewrite List.app_nil_r in H.
  destruct (final c) as [|e tb|e]; simpl; try exact H.
  rewrite hook_calls_app, write_no_hook, H. simpl. apply List.app_nil_r.
Qed.

(** [runcode] returns unless the code raises [SystemExit]. *)
Lemma runcode_result (c : code) (st : interp) :
  runcode render c st =
    match final c with
    | Exits e => Exn e (final_state (runcode render c st))
    | _ => Ok tt (final_state (runcode render c st))
    end.
Proof. rewrite runcode_eq. destruct (final c); reflexivity. Qed.

(** Unless the code raises [SystemExit], [runcode] returns, and past the
    execution event it only writes and notifies. *)
Lemma runcode_returns (c : code) (st : interp) :
  (forall e, final c <> Exits e) ->
  exists st', runcode render c st = Ok tt st'
              /\ steady (log (EvExec c) st) st'.
Proof.
  intros Hfin. pose proof (runcode_steady c st) as Hs.
  rewrite runcode_result in Hs |- *.
  destruct (final c) as [|e tb|e]; [eauto | eauto | destruct (Hfin e eq_refl)].
Qed.

(** The interpreter when [exec] reaches the compiler. *)
Definition before_exec (source : string) (st : interp) : interp :=
  log (EvPreprocess source)
    (synclocals (log (EvSetFlag true) (with_flag true st))).

Lemma exec_eq (source filename : string) (st : interp) :
  exec compile render source filename st =
    match runsource compile render source filename "exec" (before_exec source st) with
    | Ok _ st1 =>
        Ok tt (log (EvSetFlag false)
                 (with_flag false (log (EvPostprocess source) st1)))
    | Exn e st1 => Exn e st1
    end.
Proof.
  unfold exec, before_exec, set_flag, bind, lift. simpl.
  destruct (runsource compile render source filename "exec" _); reflexivity.
Qed.

Lemma runsource_eq (source filename symbol : string) (st : interp) :
  runsource compile render source filename symbol st =
    (let st0 := log (EvCompile source filename symbol) st in
     match compile source filename symbol with
     | Invalid e tb =>
         Ok false (log (EvSetView "console" true)
                     (write render [VStr (traceback_text e tb)] (TStr "red") st0))
     | Incomplete => Ok true st0
     | Complete c =>
         match runcode render c st0 with
         | Ok _ st1 => Ok false st1
         | Exn e st1 => Exn e st1
         end
     | Fails e => Exn e st0
     end).
Proof.
  unfold runsource, bind, lift, ret, raise. simpl.
  destruct (compile source filename symbol); reflexivity.
Qed.

(** What [runsource] answers, by the outcome of the compiler: it is left
    by an exception of the compiler that is not caught, and by the
    [SystemExit] of the code. *)
Lemma runsource_result (source filename symbol : string) (st : interp) :
  let r := runsource compile render source filename symbol st in
  r = match compile source filename symbol with
      | Complete c =>
          match final c with
          | Exits e => Exn e (final_state r)
          | _ => Ok false (final_state r)
          end
      | Incomplete => Ok true (final_state r)
      | Invalid _ _ => Ok false (final_state r)
      | Fails e => Exn e (final_state r)
      end.
Proof.
  cbv zeta. rewrite runsource_eq. cbv zeta.
  destruct (compile source filename symbol) as [c | | e tb | e]; try reflexivity.
  rewrite runcode_result. destruct (final c); reflexivity.
Qed.

(** Whatever the compiler answers, [runsource] leaves the console's
    bookkeeping alone, compiles once, runs the code if there is one, and
    calls no hook. *)
Lemma runsource_frame_all (source filename symbol : string) (st : interp) :
  let st' := final_state (runsource compile render source filename symbol st) in
  buffer st' = buffer st
  /\ history st' = history st
  /\ prevent_module_import st' = prevent_module_import st
  /\ cursor_position st' = cursor_position st
  /\ exists l, trace st' = (trace st ++ EvCompile source filename symbol :: l)%list
               /\ executions l = compiled_code (compile source filename symbol)
               /\ compilations l = [].
Proof.
  cbv zeta. rewrite runsource_eq. cbv zeta.
  destruct (compile source filename symbol) as [c | | e tb | e].
  - pose proof (runcode_steady c (log (EvCompile source filename symbol) st))
      as (Hb & Hh & Hf & Hc & l & Hl & He & Hs).
    assert (E : final_state
      match runcode render c (log (EvCompile source filename symbol) st) with
      | Ok _ st1 => Ok false st1
      | Exn e st1 => Exn e st1
      end = final_state (runcode render c (log (EvCompile source filename symbol) st))).
    { destruct (runcode render c _); reflexivity. }
    rewrite E. simpl in Hb, Hh, Hf, Hc, Hl.
    repeat (split; [assumption|]).
    exists (EvExec c :: l). split.
    + rewrite Hl, <- !List.app_assoc. reflexivity.
    + simpl. rewrite He. auto.
  - simpl. repeat (split; [reflexivity|]). exists []. auto.
  - pose proof (steady_write render [VStr (traceback_text e tb)] (TStr "red")
                  (log (EvCompile source filename symbol) st))
      as (Hb & Hh & Hf & Hc & l & Hl & He & Hs).
    simpl in Hb, Hh, Hf, Hc, Hl |- *.
    repeat (split; [assumption|]).
    exists (l ++ [EvSetView "console" true])%list. split.
    + rewrite Hl, <- !List.app_assoc. reflexivity.
    + unfold executions, compilations in *. rewrite !omap_app, He, Hs. auto.
  - simpl. repeat (split; [reflexivity|]). exists []. auto.
Qed.

Lemma runsource_no_hook (source filename symbol : string) (st : interp) :
  hook_calls (trace (final_state (runsource compile render source filename symbol st)))
  = hook_calls (trace st).
Proof.
  rewrite runsource_eq. cbv zeta.
  assert (H0 : hook_calls (trace (log (EvCompile source filename symbol) st))
               = hook_calls (trace st)) by no_hook.
  destruct (compile source filename symbol) as [c | | e tb | e]; try exact H0.
  - rewrite <- H0, <- (runcode_no_hook c (log (EvCompile source filename symbol) st)).
    destruct (runcode render c _); reflexivity.
  - simpl. rewrite hook_calls_app, write_no_hook. simpl.
    rewrite hook_calls_app. simpl. rewrite !List.app_nil_r. reflexivity.
Qed.

(** The first event of an execution is its start. *)
Lemma runsource_starts_execution (source filename symbol : string) (c : code)
    (st : interp) (l : list event) :
  compile source filename symbol = Complete c ->
  trace (final_state (runsource compile render source filename symbol st))
    = (trace st ++ EvCompile source filename symbol :: l)%list ->
  exists l', l = EvExec c :: l'.
Proof.
  intros Hc Ht. rewrite runsource_eq, Hc in Ht. cbv zeta in Ht.
  pose proof (runcode_steady c (log (EvCompile source filename symbol) st))
    as (_ & _ & _ & _ & l' & Hl & _).
  assert (E : final_state
    match runcode render c (log (EvCompile source filename symbol) st) with
    | Ok _ st1 => Ok false st1
    | Exn e st1 => Exn e st1
    end = final_state (runcode render c (log (EvCompile source filename symbol) st))).
  { destruct (runcode render c _); reflexivity. }
  rewrite E, Hl in Ht. simpl in Ht. rewrite <- !List.app_assoc in Ht.
  apply List.app_inv_head in Ht. simpl in Ht. injection Ht as Ht.
  exists l'. symmetry. exact Ht.
Qed.

(** [synclocals] pulls both registries into the namespace; on a clash
    the module registry wins over the object registry, and both over what
    the namespace held. *)
Lemma synclocals_pulls_registries (st : interp) (k : string) :
  locals (synclocals st) !! k =
    match modules st !! k with
    | Some v => Some v
    | None =>
        match objects st !! k with
        | Some v => Some v
        | None => locals st !! k
        end
    end.
Proof.
  unfold synclocals. simpl. rewrite !lookup_union.
  destruct (modules st !! k), (objects st !! k), (locals st !! k); reflexivity.
Qed.

(** C4 (as amended): [exec] sets the flag, syncs the namespace, calls the
    pre-processing hook with the source, hands the source to the compiler
    and runs the code if there is one, and then, if nothing was raised out
    of that step, calls the post-processing hook with the source and clears
    the flag, in this order and each once.  Two things are raised out of
    the compile-and-run step: an exception of the compiler other than the
    three that are reported as a syntax error, and the [SystemExit] of the
    code; any other exception of the code is caught inside the execution
    primitive.  In both cases [exec] raises it, the post-processing hook is
    not called and the flag stays on; in every other case [exec] returns
    with the flag off. *)
Theorem exec_steps_in_order (source filename : string) (st : interp) :
  let r := exec compile render source filename st in
  let st' := final_state r in
  r = match compile source filename "exec" with
      | Fails e => Exn e st'
      | Complete c =>
          match final c with
          | Exits e => Exn e st'
          | _ => Ok tt st'
          end
      | _ => Ok tt st'
      end
  /\ prevent_module_import st' = negb (returns r)
  /\ exists during,
       trace st' =
         (trace st ++
          [EvSetFlag true; EvSync; EvPreprocess source;
           EvCompile source filename "exec"] ++
          during ++
          (if returns r then [EvPostprocess source; EvSetFlag false] else []))%list
       /\ (forall c, compile source filename "exec" = Complete c ->
             exists l, during = EvExec c :: l /\ executions l = [])
       /\ executions during = compiled_code (compile source filename "exec")
       /\ compilations during = []
       /\ hook_calls during = [].
Proof.
  cbv zeta. rewrite exec_eq.
  pose proof (runsource_result source filename "exec" (before_exec source st)) as Hr.
  pose proof (runsource_frame_all source filename "exec" (before_exec source st))
    as (_ & _ & Hf & _ & l & Hl & He & Hs).
  pose proof (runsource_no_hook source filename "exec" (before_exec source st)) as Hh.
  pose proof (fun c Hc => runsource_starts_execution source filename "exec" c
                            (before_exec source st) l Hc Hl) as Hstart.
  cbv zeta in Hr, Hf, Hl, Hh.
  set (r := runsource compile render source filename "exec" (before_exec source st)) in *.
  assert (Hhl : hook_calls l = []).
  { rewrite Hl in Hh. rewrite hook_calls_app in Hh. simpl in Hh.
    rewrite <- (List.app_nil_r (hook_calls (trace (before_exec source st)))) in Hh at 2.
    apply List.app_inv_head in Hh. exact Hh. }
  assert (Ht0 : trace (before_exec source st) =
    (trace st ++ [EvSetFlag true; EvSync; EvPreprocess source])%list).
  { unfold before_exec. simpl. rewrite <- !List.app_assoc. reflexivity. }
  assert (Hdur : forall c, compile source filename "exec" = Complete c ->
                   exists l', l = EvExec c :: l' /\ executions l' = []).
  { intros c Hc. destruct (Hstart c Hc) as [l' ->]. exists l'. split; [reflexivity|].
    rewrite Hc in He. simpl in He. injection He as He. exact He. }
  assert (Hflag : prevent_module_import (final_state r) = true) by exact Hf.
  split; [|split].
  - rewrite Hr.
    destruct (compile source filename "exec") as [c | | e tb | e]; try reflexivity.
    destruct (final c); reflexivity.
  - destruct r; [reflexivity | exact Hflag].
  - exists l. split; [|auto].
    destruct r as [b st1 | e st1]; cbn [final_state] in Hl;
      cbn [final_state returns trace log with_flag].
    + rewrite Hl, Ht0, <- !List.app_assoc. reflexivity.
    + rewrite Hl, Ht0, <- !List.app_assoc. simpl. rewrite List.app_nil_r. reflexivity.
Qed.

End EngineFacts.

(** C4, as stated, fails when the block raises [SystemExit]: the exception
    leaves [exec] and the flag stays on. *)
Lemma exec_system_exit_leaves_flag_on :
  exists st',
    exec sample_compile sample_render "raise SystemExit" "<file>" initial
      = Exn SystemExit st'
    /\ prevent_module_import st' = true
    /\ trace st' =
         [EvSetFlag true; EvSync; EvPreprocess "raise SystemExit";
          EvCompile "raise SystemExit" "<file>" "exec";
          EvExec (Code [] (Exits SystemExit))].
Proof. eexists. vm_compute. auto. Qed.

(** The same happens when the compiler itself gives up on the source:
    nothing is run, the exception leaves [exec] and the flag stays on. *)
Lemma exec_compiler_failure_leaves_flag_on :
  exists st',
    exec overflowing_compile sample_render "1+1+1" "<file>" initial
      = Exn RecursionError st'
    /\ prevent_module_import st' = true
    /\ trace st' =
         [EvSetFlag true; EvSync; EvPreprocess "1+1+1";
          EvCompile "1+1+1" "<file>" "exec"].
Proof. eexists. vm_compute. auto. Qed.

(** *** Exceptions of user code *)

Section ExceptionFacts.

Variable compile : string -> string -> string -> compiled.
Variable render : value -> string.

Import PyStr PyStrFacts.

#[local] Arguments slice_to : simpl never.
#[local] Arguments slice_from : simpl never.
#[local] Arguments join : simpl never.
#[local] Arguments last_line_start : simpl never.
#[local] Arguments String.eqb : simpl never.

Lemma before_compile_flag (s : string) (st : interp) :
  prevent_module_import (before_compile s st) = prevent_module_import st.
Proof.
  unfold before_compile. cbv zeta.
  destruct (String.eqb _ "plot"); reflexivity.
Qed.

Lemma after_actions_flag (c : code) (st : interp) :
  prevent_module_import (after_actions render c st) = prevent_module_import st.
Proof.
  unfold after_actions.
  destruct (steady_run_actions render (acts c) (log (EvExec c) st))
    as (_ & _ & Hf & _).
  exact Hf.
Qed.

(** C3 (as amended): an exception other than [SystemExit] raised by the
    code of a statement submitted through [push], the flag being off, is
    put on the display as the formatted traceback text (what follows its
    last carriage return, if it holds one) with the tag [red], and the
    console view is brought into focus.  Raised by a block run through
    [exec], it is not displayed: the flag is on, [write] discards the
    text, the display is as it was, and only the focus request is made. *)
Theorem exception_shown_unless_suppressed
    (s source filename symbol : string) (c : code) (e : exc) (tb : list frame)
    (st : interp) :
  starts_like_name (exc_type e) = true ->
  final c = Raises e tb ->
  let text := traceback_text e tb in
  (prevent_module_import st = false ->
   del_shortcut (join (buffer st ++ [s])) st = false ->
   compile (join (buffer st ++ [s])) filename symbol = Complete c ->
   exists st',
     push compile render s filename symbol st = Ok tt st'
     /\ (exists kept, display st' = kept +:+ shown text +:+ nl)
     /\ (exists tgs, In "red" tgs /\ In (EvInsert (shown text) tgs) (trace st'))
     /\ In (EvSetView "console" true) (trace st'))
  /\ (compile source filename "exec" = Complete c ->
      exists st',
        exec compile render source filename st = Ok tt st'
        /\ display st' = display st
        /\ In (EvSetView "console" true) (trace st')).
Proof.
  intros Hname Hfin text. split.
  - intros Hflag Hdel Hc.
    rewrite (push_complete compile render s filename symbol c st Hdel Hc).
    rewrite runcode_eq, Hfin. fold text.
    set (st0 := log (EvCompile (join (buffer st ++ [s])) filename symbol)
                    (before_compile s st)).
    assert (Hflag' : prevent_module_import (after_actions render c st0) = false).
    { rewrite after_actions_flag. unfold st0. simpl.
      rewrite before_compile_flag. exact Hflag. }
    destruct (traceback_text_visible e tb Hname) as [H1 H2]. fold text in H1, H2.
    destruct (write_shown render text (TStr "red") (after_actions render c st0)
                Hflag' H1 H2) as [Hd Ht].
    eexists. split; [reflexivity|]. simpl. split; [|split].
    + rewrite Hd. eauto.
    + exists (tk_tags (tags_for (shown text) (TStr "red"))).
      split; [apply red_in_tags_for|].
      rewrite Ht. rewrite !in_app_iff. simpl. tauto.
    + rewrite !in_app_iff. simpl. tauto.
  - intros Hc. rewrite exec_eq, runsource_eq, Hc. cbv zeta.
    rewrite runcode_eq, Hfin. fold text.
    set (st0 := log (EvCompile source filename "exec") (before_exec source st)).
    assert (Hflag' : prevent_module_import (after_actions render c st0) = true).
    { rewrite after_actions_flag. reflexivity. }
    eexists. split; [reflexivity|]. simpl. split.
    + rewrite write_while_suppressed by exact Hflag'.
      unfold after_actions. rewrite run_actions_suppressed by reflexivity.
      reflexivity.
    + rewrite !in_app_iff. simpl. tauto.
Qed.

End ExceptionFacts.

(** C3, as stated, fails for a block run through [exec]: the division by
    zero below leaves the display empty and inserts nothing; the traceback
    is visible nowhere. *)
Lemma exec_exception_is_not_displayed :
  let st' := final_state (exec sample_compile sample_render "1/0" "<file>" initial) in
  display st' = ""
  /\ trace st' =
       [EvSetFlag true; EvSync; EvPreprocess "1/0"; EvCompile "1/0" "<file>" "exec";
        EvExec (Code [] (Raises ZeroDivisionError [Frame "<file>" 1 "<module>" "" None]));
        EvSetView "console" true; EvPostprocess "1/0"; EvSetFlag false].
Proof. vm_compute. auto. Qed.

Lemma exception_shown_unless_suppressed_witness :
  (exists st',
     push sample_compile sample_render "1/0" "<input>" "single" initial = Ok tt st'
     /\ (exists kept, display st' =
           kept +:+ shown (traceback_text ZeroDivisionError [Frame "<input>" 1 "<module>" "" None])
                +:+ PyStr.nl))
  /\ (exists st',
        exec sample_compile sample_render "1/0" "<file>" initial = Ok tt st'
        /\ display st' = display initial).
Proof.
  split.
  - destruct (proj1 (exception_shown_unless_suppressed sample_compile sample_render
        "1/0" "1/0" "<input>" "single"
        (Code [] (Raises ZeroDivisionError [Frame "<input>" 1 "<module>" "" None]))
        ZeroDivisionError [Frame "<input>" 1 "<module>" "" None] initial
        eq_refl eq_refl) eq_refl eq_refl eq_refl) as (st' & H1 & H2 & _).
    exists st'. auto.
  - destruct (proj2 (exception_shown_unless_suppressed sample_compile sample_render
        "1/0" "1/0" "<file>" "single"
        (Code [] (Raises ZeroDivisionError [Frame "<file>" 1 "<module>" "" None]))
        ZeroDivisionError [Frame "<file>" 1 "<module>" "" None] initial
        eq_refl eq_refl) eq_refl) as (st' & H1 & H2 & _).
    exists st'. auto.
Defined.

(** *** StatementAccumulator *)

Lemma executions_app (l k : list event) :
  executions (l ++ k) = (executions l ++ executions k)%list.
Proof. apply omap_app. Qed.

Lemma compilations_app (l k : list event) :
  compilations (l ++ k) = (compilations l ++ compilations k)%list.
Proof. apply omap_app. Qed.

(** A line as the input buffer keeps it. *)
Definition add_nl (l : string) : string := l +:+ PyStr.nl.

Section AccumulatorFacts.

Variable compile : string -> string -> string -> compiled.
Variable render : value -> string.

Import PyStr PyStrFacts.

#[local] Arguments slice_to : simpl never.
#[local] Arguments slice_from : simpl never.
#[local] Arguments join : simpl never.
#[local] Arguments last_line_start : simpl never.
#[local] Arguments String.eqb : simpl never.

(** Lines submitted one after the other. *)
Fixpoint push_lines (ls : list string) (filename symbol : string) : M unit :=
  match ls with
  | [] => ret tt
  | l :: ls' =>
      push compile render l filename symbol ;; push_lines ls' filename symbol
  end.

Lemma del_shortcut_objects (source : string) (st st' : interp) :
  objects st' = objects st -> del_shortcut source st' = del_shortcut source st.
Proof. intros H. unfold del_shortcut. rewrite H. reflexivity. Qed.

Lemma before_compile_frame (s : string) (st : interp) :
  buffer (before_compile s st) = buffer st
  /\ history (before_compile s st) = history st
  /\ objects (before_compile s st) = objects st
  /\ display (before_compile s st) = display st
  /\ exists l, trace (before_compile s st) = (trace st ++ l)%list
               /\ executions l = [] /\ compilations l = [].
Proof.
  unfold before_compile. cbv zeta.
  destruct (String.eqb _ "plot"); simpl; repeat split.
  - eexists. rewrite <- !List.app_assoc. simpl. eauto.
  - eexists. rewrite <- !List.app_assoc. simpl. eauto.
Qed.

Lemma before_compile_trace (s : string) (st : interp) :
  exists l,
    trace (before_compile s st) =
      (trace st ++ EvSync :: EvPreprocess (join (buffer st ++ [s])) :: l)%list
    /\ l = (if String.eqb (slice_to 4 (join (buffer st ++ [s]))) "plot"
            then [EvPrompt] else []).
Proof.
  unfold before_compile. cbv zeta.
  destruct (String.eqb _ "plot"); simpl; eexists; split;
    try reflexivity; rewrite <- !List.app_assoc; reflexivity.
Qed.

Lemma before_compile_cursor (s : string) (st : interp) :
  cursor_position (before_compile s st) = last_line_start (display st).
Proof.
  unfold before_compile. cbv zeta.
  destruct (String.eqb _ "plot"); reflexivity.
Qed.

#[local] Arguments runsource : simpl never.

(** The interpreter when [push] tests the deletion shortcut. *)
Definition before_shortcut (s : string) (st : interp) : interp :=
  log (EvPreprocess (join (buffer st ++ [s])))
    (synclocals (with_cursor (last_line_start (display st)) st)).

(** [push], by the outcome of the shortcut test and of [runsource]. *)
Lemma push_eq (s filename symbol : string) (st : interp) :
  let source := join (buffer st ++ [s]) in
  push compile render s filename symbol st =
    if del_shortcut source st then
      Ok tt (log EvPrompt
               (log (EvObjectsDel (slice_from 4 source))
                  (with_objects (delete (slice_from 4 source) (objects st))
                     (before_shortcut s st))))
    else
      match runsource compile render source filename symbol (before_compile s st) with
      | Ok true st1 =>
          Ok tt (log EvPrompt
                   (history_append s
                      (with_buffer (buffer st1 ++ [s +:+ nl]) st1)))
      | Ok false st1 =>
          Ok tt (log EvPrompt
                   (with_buffer []
                      (history_extend s
                         (log (EvPostprocess source) st1))))
      | Exn e st1 => Exn e st1
      end.
Proof.
  intros source. destruct (del_shortcut source st) eqn:Hdel.
  - apply (push_shortcut compile render s filename symbol st Hdel).
  - unfold push, before_compile, bind, lift, ret. simpl.
    fold source. change (del_shortcut source _) with (del_shortcut source st).
    rewrite Hdel. unfold bind, lift. simpl.
    destruct (String.eqb (slice_to 4 source) "plot"); simpl;
      match goal with |- context [runsource compile render source filename symbol ?x] =>
        destruct (runsource compile render source filename symbol x) as [[|] st1 | e st1]
      end; reflexivity.
Qed.

(** When the shortcut fires the key is deleted, the prompt is called, and
    that is all. *)
Lemma push_shortcut_effect (s filename symbol : string) (st : interp) :
  let source := join (buffer st ++ [s]) in
  let r := push compile render s filename symbol st in
  let st' := final_state r in
  del_shortcut source st = true ->
  r = Ok tt st'
  /\ objects st' = delete (slice_from 4 source) (objects st)
  /\ trace st' =
       (trace st ++
        [EvSync; EvPreprocess source; EvObjectsDel (slice_from 4 source); EvPrompt])%list
  /\ compilations (trace st') = compilations (trace st)
  /\ executions (trace st') = executions (trace st)
  /\ history st' = history st
  /\ buffer st' = buffer st.
Proof.
  cbv zeta. intros Hdel. rewrite push_eq. cbv zeta. rewrite Hdel.
  split; [reflexivity|]. simpl.
  rewrite <- !List.app_assoc. simpl.
  rewrite !executions_app, !compilations_app. simpl.
  rewrite !List.app_nil_r. auto 10.
Qed.

(** When the shortcut does not fire: the accumulated source is compiled
    once and run once if it is complete; what becomes of the buffer and of
    the history goes by the answer of the compiler and by the way the code
    ends.  [push] is left by an exception when the compiler raises one that
    is not caught and when the code raises [SystemExit]. *)
Lemma push_cases (s filename symbol : string) (st : interp) :
  let source := join (buffer st ++ [s]) in
  let r := push compile render s filename symbol st in
  let st' := final_state r in
  del_shortcut source st = false ->
  compilations (trace st') = (compilations (trace st) ++ [source])%list
  /\ executions (trace st') =
       (executions (trace st) ++ compiled_code (compile source filename symbol))%list
  /\ match compile source filename symbol with
     | Incomplete =>
         r = Ok tt st'
         /\ buffer st' = (buffer st ++ [s +:+ nl])%list
         /\ history st' = (history st ++ [s])%list
     | Invalid _ _ =>
         r = Ok tt st'
         /\ buffer st' = []
         /\ history st' = (history st ++ [s])%list
     | Fails e =>
         r = Exn e st'
         /\ buffer st' = buffer st
         /\ history st' = history st
     | Complete c =>
         match final c with
         | Exits e =>
             r = Exn e st'
             /\ buffer st' = buffer st
             /\ history st' = history st
         | _ =>
             r = Ok tt st'
             /\ buffer st' = []
             /\ history st' = (history st ++ [s])%list
         end
     end.
Proof.
  cbv zeta. intros Hdel. rewrite push_eq. cbv zeta. rewrite Hdel.
  destruct (runsource_frame_all compile render (join (buffer st ++ [s])) filename symbol
              (before_compile s st)) as (Hb & Hh & _ & _ & l & Hl & He & Hs).
  destruct (before_compile_frame s st) as (Bb & Bh & _ & _ & l0 & Bl & Be & Bs).
  rewrite (runsource_result compile render). cbv zeta.
  set (st1 := final_state
                (runsource compile render (join (buffer st ++ [s])) filename symbol
                   (before_compile s st))) in *.
  assert (Ht : compilations (trace st1)
               = (compilations (trace st) ++ [join (buffer st ++ [s])])%list
               /\ executions (trace st1)
                  = (executions (trace st)
                     ++ compiled_code
                          (compile (join (buffer st ++ [s])) filename symbol))%list).
  { rewrite Hl, Bl, !executions_app, !compilations_app, Be, Bs.
    change (executions (EvCompile (join (buffer st ++ [s])) filename symbol :: l))
      with (executions l).
    change (compilations (EvCompile (join (buffer st ++ [s])) filename symbol :: l))
      with (join (buffer st ++ [s]) :: compilations l).
    rewrite He, Hs, !List.app_nil_r. auto. }
  destruct Ht as [Htc Hte].
  destruct (compile (join (buffer st ++ [s])) filename symbol) as [c | | e tb | e].
  - destruct (final c) as [|e tb|e]; simpl;
      rewrite ?executions_app, ?compilations_app, ?Htc, ?Hte, ?Hb, ?Hh, ?Bb, ?Bh;
      simpl; rewrite ?List.app_nil_r; auto 10.
  - simpl.
    rewrite ?executions_app, ?compilations_app, ?Htc, ?Hte, ?Hb, ?Hh, ?Bb, ?Bh.
    simpl. rewrite ?List.app_nil_r. auto 10.
  - simpl.
    rewrite ?executions_app, ?compilations_app, ?Htc, ?Hte, ?Hb, ?Hh, ?Bb, ?Bh.
    simpl. rewrite ?List.app_nil_r. auto 10.
  - simpl.
    rewrite ?executions_app, ?compilations_app, ?Htc, ?Hte, ?Hb, ?Hh, ?Bb, ?Bh.
    simpl. rewrite ?List.app_nil_r. auto 10.
Qed.

(** Unless it is run, a source leaves the object registry alone. *)
Lemma push_objects_kept (s filename symbol : string) (st : interp) :
  let source := join (buffer st ++ [s]) in
  del_shortcut source st = false ->
  (forall c, compile source filename symbol <> Complete c) ->
  objects (final_state (push compile render s filename symbol st)) = objects st.
Proof.
  cbv zeta. intros Hdel Hc. rewrite push_eq. cbv zeta. rewrite Hdel.
  destruct (before_compile_frame s st) as (_ & _ & Bo & _).
  rewrite (runsource_eq compile render). cbv zeta.
  destruct (compile (join (buffer st ++ [s])) filename symbol) as [c | | e tb | e].
  - destruct (Hc c eq_refl).
  - simpl. exact Bo.
  - cbn [final_state objects log with_buffer history_extend with_history].
    match goal with |- context [write render ?a ?t ?x] =>
      destruct (write_registries render a t x) as [_ Wo] end.
    rewrite Wo. simpl. exact Bo.
  - simpl. exact Bo.
Qed.

(** An incomplete line is buffered with its terminator and recorded in
    the history; nothing runs. *)
Lemma push_incomplete_effect (s filename symbol : string) (st : interp) :
  del_shortcut (join (buffer st ++ [s])) st = false ->
  compile (join (buffer st ++ [s])) filename symbol = Incomplete ->
  exists st',
    push compile render s filename symbol st = Ok tt st'
    /\ buffer st' = (buffer st ++ [add_nl s])%list
    /\ history st' = (history st ++ [s])%list
    /\ objects st' = objects st
    /\ executions (trace st') = executions (trace st)
    /\ compilations (trace st') =
         (compilations (trace st) ++ [join (buffer st ++ [s])])%list.
Proof.
  intros Hdel Hc.
  destruct (push_cases s filename symbol st Hdel) as (H1 & H2 & H3).
  pose proof (push_objects_kept s filename symbol st Hdel) as Ho.
  rewrite Hc in H2, H3, Ho. destruct H3 as (Hr & Hb & Hh).
  simpl in H2. rewrite List.app_nil_r in H2.
  eexists. split; [exact Hr|]. unfold add_nl.
  repeat split; try assumption. apply Ho. discriminate.
Qed.

Lemma push_lines_incomplete (ls : list string) (filename symbol : string) (st : interp) :
  (forall done l rest, ls = (done ++ l :: rest)%list ->
     compile (join (buffer st ++ map add_nl done ++ [l])) filename symbol = Incomplete
     /\ del_shortcut (join (buffer st ++ map add_nl done ++ [l])) st = false) ->
  exists st',
    push_lines ls filename symbol st = Ok tt st'
    /\ buffer st' = (buffer st ++ map add_nl ls)%list
    /\ history st' = (history st ++ ls)%list
    /\ objects st' = objects st
    /\ executions (trace st') = executions (trace st).
Proof.
  revert st. induction ls as [|l ls IH]; intros st H.
  - exists st. simpl. rewrite !List.app_nil_r. auto.
  - destruct (H [] l ls eq_refl) as [Hc Hdel]. simpl in Hc, Hdel.
    destruct (push_incomplete_effect l filename symbol st Hdel Hc)
      as (st1 & Hp & Hb & Hh & Ho & He & _).
    destruct (IH st1) as (st2 & Hp2 & Hb2 & Hh2 & Ho2 & He2).
    { intros done l' rest ->.
      destruct (H (l :: done) l' rest eq_refl) as [Hc' Hdel'].
      rewrite Hb, <- List.app_assoc. simpl in Hc', Hdel' |- *.
      split; [exact Hc'|].
      rewrite (del_shortcut_objects _ st st1 Ho). exact Hdel'. }
    exists st2. simpl. unfold bind. rewrite Hp, Hp2.
    rewrite Hb2, Hb, Hh2, Hh, <- !List.app_assoc. simpl.
    split; [reflexivity|]. repeat split; congruence.
Qed.

(** C2 (as amended): when the deletion shortcut does not fire, the
    accumulated source is handed to the compiler once.  If it compiles as a
    complete statement, [push] executes it at once, and once; then, unless
    the code raised [SystemExit], [push] returns, the input buffer is empty
    and the line is one more entry of the history.  If the code raised
    [SystemExit], [push] raises it, and the buffer and the history are as
    they were.  Only when the answer of the compiler is "incomplete" is the
    line, followed by a newline, added to the buffer, and then nothing is
    executed.  A source that does not compile empties the buffer and is not
    executed, and an exception of the compiler that is not caught leaves
    [push] with the buffer and the history as they were. *)
Theorem push_runs_complete_statement (s filename symbol : string) (st : interp) :
  let source := join (buffer st ++ [s]) in
  let r := push compile render s filename symbol st in
  let st' := final_state r in
  del_shortcut source st = false ->
  compilations (trace st') = (compilations (trace st) ++ [source])%list
  /\ match compile source filename symbol with
     | Complete c =>
         executions (trace st') = (executions (trace st) ++ [c])%list
         /\ match final c with
            | Exits e =>
                r = Exn e st'
                /\ buffer st' = buffer st
                /\ history st' = history st
            | _ =>
                r = Ok tt st'
                /\ buffer st' = []
                /\ history st' = (history st ++ [s])%list
            end
     | Incomplete =>
         executions (trace st') = executions (trace st)
         /\ r = Ok tt st'
         /\ buffer st' = (buffer st ++ [s +:+ nl])%list
         /\ history st' = (history st ++ [s])%list
     | Invalid _ _ =>
         executions (trace st') = executions (trace st)
         /\ r = Ok tt st'
         /\ buffer st' = []
         /\ history st' = (history st ++ [s])%list
     | Fails e =>
         executions (trace st') = executions (trace st)
         /\ r = Exn e st'
         /\ buffer st' = buffer st
         /\ history st' = history st
     end.
Proof.
  cbv zeta. intros Hdel.
  destruct (push_cases s filename symbol st Hdel) as (H1 & H2 & H3).
  split; [exact H1|].
  destruct (compile (join (buffer st ++ [s])) filename symbol) as [c | | e tb | e];
    simpl in H2; rewrite ?List.app_nil_r in H2.
  - split; [exact H2 | exact H3].
  - split; [exact H2 | exact H3].
  - split; [exact H2 | exact H3].
  - split; [exact H2 | exact H3].
Qed.

(** C5 (as amended): the lines of a statement submitted one at a time on
    an empty buffer, every prefix being incomplete and none of the
    accumulated sources firing the deletion shortcut, are buffered with
    their terminators and nothing runs.  The submission that completes the
    statement triggers one compilation and one execution, of the code
    compiled from the buffered lines followed by that line.  Unless that
    code raises [SystemExit], [push] returns and the buffer is empty; if it
    does, [push] raises it and the buffer still holds the lines. *)
Theorem multiline_statement_runs_once
    (ls : list string) (s filename symbol : string) (c : code) (st : interp) :
  buffer st = [] ->
  (forall done l rest, ls = (done ++ l :: rest)%list ->
     compile (join (map add_nl done ++ [l])) filename symbol = Incomplete
     /\ del_shortcut (join (map add_nl done ++ [l])) st = false) ->
  compile (join (map add_nl ls ++ [s])) filename symbol = Complete c ->
  del_shortcut (join (map add_nl ls ++ [s])) st = false ->
  exists st1,
    push_lines ls filename symbol st = Ok tt st1
    /\ buffer st1 = map add_nl ls
    /\ executions (trace st1) = executions (trace st)
    /\ (let r := push compile render s filename symbol st1 in
        let st2 := final_state r in
        executions (trace st2) = (executions (trace st) ++ [c])%list
        /\ compilations (trace st2) =
             (compilations (trace st1) ++ [join (map add_nl ls ++ [s])])%list
        /\ match final c with
           | Exits e => r = Exn e st2 /\ buffer st2 = map add_nl ls
           | _ => r = Ok tt st2 /\ buffer st2 = []
           end).
Proof.
  intros Hbuf Hinc Hc Hdel.
  destruct (push_lines_incomplete ls filename symbol st)
    as (st1 & Hp & Hb & _ & Ho & He).
  { intros done l rest E. rewrite Hbuf. exact (Hinc done l rest E). }
  rewrite Hbuf in Hb. simpl in Hb.
  exists st1. split; [exact Hp|]. split; [exact Hb|]. split; [exact He|].
  cbv zeta.
  destruct (push_cases s filename symbol st1) as (H1 & H2 & H3).
  { rewrite Hb, (del_shortcut_objects _ st st1 Ho). exact Hdel. }
  rewrite Hb in H1, H2, H3. rewrite Hc in H2, H3. rewrite He in H2.
  split; [exact H2|]. split; [exact H1|].
  destruct (final c); destruct H3 as (Hr & Hb' & _); rewrite ?Hb in Hb'; auto.
Qed.

Lemma join_single (s : string) : join [s] = s.
Proof. unfold join. simpl. apply app_empty_r. Qed.

(** C6 (as amended): the shortcut tests the accumulated source, not the
    line.  When the buffered lines and the submitted line together read
    [del x] and [x] is a key of the object registry, as for the line
    [del x] on an empty buffer, [push] returns, having removed [x] from the
    registry; all it did was sync, call the pre-processing hook, delete,
    and call the prompt: the source was neither compiled nor executed, and
    the history and the buffer are as they were.  When the accumulated
    source does not pass the test of the shortcut, whatever the line, the
    source is handed to the compiler, and unless it compiles as a complete
    statement the object registry is as it was. *)
Theorem push_del_removes_without_compiling
    (s x filename symbol : string) (st : interp) :
  is_Some (objects st !! x) ->
  let source := join (buffer st ++ [s]) in
  let r := push compile render s filename symbol st in
  let st' := final_state r in
  (source = "del " +:+ x ->
   r = Ok tt st'
   /\ objects st' = delete x (objects st)
   /\ objects st' !! x = None
   /\ trace st' =
        (trace st ++
         [EvSync; EvPreprocess ("del " +:+ x); EvObjectsDel x; EvPrompt])%list
   /\ compilations (trace st') = compilations (trace st)
   /\ executions (trace st') = executions (trace st)
   /\ history st' = history st
   /\ buffer st' = buffer st)
  /\ (s = "del " +:+ x -> buffer st = [] -> source = "del " +:+ x)
  /\ (del_shortcut source st = false ->
      compilations (trace st') = (compilations (trace st) ++ [source])%list
      /\ ((forall c, compile source filename symbol <> Complete c) ->
          objects st' = objects st
          /\ executions (trace st') = executions (trace st))).
Proof.
  intros Hin. cbv zeta. split; [|split].
  - intros Hsrc.
    assert (Hdel : del_shortcut (join (buffer st ++ [s])) st = true).
    { rewrite Hsrc. unfold del_shortcut.
      change (slice_to 3 ("del " +:+ x)) with "del".
      change (slice_from 4 ("del " +:+ x)) with x.
      rewrite bool_decide_eq_true_2 by exact Hin. reflexivity. }
    destruct (push_shortcut_effect s filename symbol st Hdel)
      as (H1 & H2 & H3 & H4 & H5 & H6 & H7).
    rewrite Hsrc in H2, H3.
    change (slice_from 4 ("del " +:+ x)) with x in H2, H3.
    split; [exact H1|]. split; [exact H2|].
    split; [rewrite H2; apply lookup_delete_eq|]. auto.
  - intros -> ->. apply join_single.
  - intros Hdel.
    destruct (push_cases s filename symbol st Hdel) as (H1 & H2 & _).
    split; [exact H1|]. intros Hc. split.
    + apply push_objects_kept; assumption.
    + rewrite H2.
      destruct (compile (join (buffer st ++ [s])) filename symbol) as [c | | e tb | e];
        [destruct (Hc c eq_refl) | | |]; apply List.app_nil_r.
Qed.

(** C10 (as amended): when the deletion shortcut fires, [push] returns
    early, and the history and the input buffer are as they were.  Such a
    line is not the only one that never appears in the history: when the
    shortcut does not fire, the line is one more entry of the history if
    [push] returns, and if [push] is left by an exception (of the compiler,
    or the [SystemExit] of the code) the history is as it was. *)
Theorem shortcut_line_not_in_history (s filename symbol : string) (st : interp) :
  let source := join (buffer st ++ [s]) in
  let r := push compile render s filename symbol st in
  let st' := final_state r in
  if del_shortcut source st then
    r = Ok tt st'
    /\ history st' = history st
    /\ buffer st' = buffer st
  else
    if returns r then history st' = (history st ++ [s])%list
    else
      history st' = history st
      /\ exists e, r = Exn e st'
           /\ (compile source filename symbol = Fails e
               \/ exists c, compile source filename symbol = Complete c
                            /\ final c = Exits e).
Proof.
  cbv zeta. destruct (del_shortcut (join (buffer st ++ [s])) st) eqn:Hdel.
  - destruct (push_shortcut_effect s filename symbol st Hdel)
      as (H1 & _ & _ & _ & _ & H6 & H7). auto.
  - destruct (push_cases s filename symbol st Hdel) as (_ & _ & H3).
    destruct (compile (join (buffer st ++ [s])) filename symbol) as [c | | e tb | e].
    + destruct (final c) as [|e tb|e] eqn:Hfin; destruct H3 as (Hr & _ & Hh);
        rewrite Hr; simpl; try exact Hh.
      split; [rewrite Hr in Hh; exact Hh|]. exists e. split; [reflexivity|].
      right. exists c. auto.
    + destruct H3 as (Hr & _ & Hh). rewrite Hr. simpl. rewrite Hr in Hh. exact Hh.
    + destruct H3 as (Hr & _ & Hh). rewrite Hr. simpl. rewrite Hr in Hh. exact Hh.
    + destruct H3 as (Hr & _ & Hh). rewrite Hr. simpl.
      split; [rewrite Hr in Hh; exact Hh|]. exists e. auto.
Qed.

End AccumulatorFacts.

(** The line [x = 1] on a fresh interpreter. *)
Lemma push_runs_complete_statement_witness :
  let r := push sample_compile sample_render "x = 1" "<input>" "single" initial in
  r = Ok tt (final_state r)
  /\ executions (trace (final_state r)) = [Code [Bind "x" (VObj "1")] Returns]
  /\ buffer (final_state r) = []
  /\ history (final_state r) = ["x = 1"].
Proof.
  destruct (push_runs_complete_statement sample_compile sample_render
              "x = 1" "<input>" "single" initial eq_refl)
    as (_ & H1 & H2 & H3 & H4).
  cbv zeta. split; [exact H2|]. split; [exact H1|]. split; [exact H3 | exact H4].
Defined.

(** C2, as stated, fails for a statement that raises [SystemExit]: the
    line below compiles as a complete statement and is executed, yet [push]
    raises, and the line is no entry of the history. *)
Lemma system_exit_line_is_not_recorded :
  let r := push sample_compile sample_render "raise SystemExit" "<input>" "single"
             initial in
  del_shortcut "raise SystemExit" initial = false
  /\ sample_compile "raise SystemExit" "<input>" "single"
     = Complete (Code [] (Exits SystemExit))
  /\ r = Exn SystemExit (final_state r)
  /\ executions (trace (final_state r)) = [Code [] (Exits SystemExit)]
  /\ history (final_state r) = [].
Proof. vm_compute. auto 10. Qed.

(** The block of the specification, submitted line by line and closed by
    a blank line. *)
Lemma multiline_statement_runs_once_witness :
  exists st1,
    push_lines sample_compile sample_render [block_head; block_body]
      "<input>" "single" initial = Ok tt st1
    /\ buffer st1 = [add_nl block_head; add_nl block_body]
    /\ executions (trace st1) = []
    /\ (let r := push sample_compile sample_render "" "<input>" "single" st1 in
        r = Ok tt (final_state r)
        /\ executions (trace (final_state r)) = [Code [Bind "x" (VObj "1")] Returns]
        /\ buffer (final_state r) = []).
Proof.
  destruct (multiline_statement_runs_once sample_compile sample_render
              [block_head; block_body] "" "<input>" "single"
              (Code [Bind "x" (VObj "1")] Returns) initial)
    as (st1 & H1 & H2 & H3 & H4 & _ & H5 & H6).
  - reflexivity.
  - intros done l rest E.
    destruct done as [|d1 [|d2 [|d3 done]]]; simpl in E.
    + injection E as <- <-. vm_compute. auto.
    + injection E as <- <- <-. vm_compute. auto.
    + injection E as _ _ E. discriminate E.
    + injection E as _ _ E. discriminate E.
  - vm_compute. reflexivity.
  - vm_compute. reflexivity.
  - exists st1. split; [exact H1|]. split; [exact H2|]. split; [exact H3|].
    cbv zeta. split; [exact H5|]. split; [exact H4 | exact H6].
Defined.

(** C5, as stated, fails for a block that raises [SystemExit]: the blank
    line completes the statement and the code is executed once, but [push]
    raises and the buffer still holds the two lines. *)
Lemma exit_block_stays_in_buffer :
  let r2 := push_lines sample_compile sample_render [block_head; exit_body]
              "<input>" "single" initial in
  let r3 := push sample_compile sample_render "" "<input>" "single" (final_state r2) in
  returns r2 = true
  /\ executions (trace (final_state r2)) = []
  /\ sample_compile exit_block "<input>" "single" = Complete (Code [] (Exits SystemExit))
  /\ r3 = Exn SystemExit (final_state r3)
  /\ executions (trace (final_state r3)) = [Code [] (Exits SystemExit)]
  /\ buffer (final_state r3) = [add_nl block_head; add_nl exit_body].
Proof. vm_compute. auto 10. Qed.

Lemma push_del_removes_without_compiling_witness :
  let r := push sample_compile sample_render "del x" "<input>" "single"
             (with_objects (<["x" := VObj "1"]> ∅) initial) in
  r = Ok tt (final_state r)
  /\ objects (final_state r) !! "x" = None
  /\ compilations (trace (final_state r)) = []
  /\ executions (trace (final_state r)) = [].
Proof.
  destruct (push_del_removes_without_compiling sample_compile sample_render
              "del x" "x" "<input>" "single"
              (with_objects (<["x" := VObj "1"]> ∅) initial))
    as (H & _ & _).
  - exists (VObj "1"). reflexivity.
  - destruct (H eq_refl) as (H1 & _ & H2 & _ & H3 & H4 & _).
    cbv zeta. split; [exact H1|]. split; [exact H2|]. split; [exact H3 | exact H4].
Defined.

(** C6, as stated, fails for a line [del x] submitted while a statement
    is under way: with the head of a block in the buffer the accumulated
    source does not start with [del], so it is handed to the compiler
    (which rejects it) and [x] stays in the object registry. *)
Lemma del_line_inside_block_is_compiled :
  let st := with_buffer [add_nl block_head]
              (with_objects (<["x" := VObj "1"]> ∅) initial) in
  let r := push sample_compile sample_render "del x" "<input>" "single" st in
  objects st !! "x" = Some (VObj "1")
  /\ compilations (trace (final_state r)) = [block_head +:+ PyStr.nl +:+ "del x"]
  /\ objects (final_state r) !! "x" = Some (VObj "1").
Proof. vm_compute. auto. Qed.

(** C10, as stated, fails for a line whose code raises [SystemExit]: the
    shortcut does not fire, the line is compiled and executed, and it never
    appears in the history, which still holds the line before it only. *)
Lemma exit_line_never_appears_in_history :
  let r1 := push sample_compile sample_render "x = 1" "<input>" "single" initial in
  let r2 := push sample_compile sample_render "raise SystemExit" "<input>" "single"
              (final_state r1) in
  del_shortcut (PyStr.join (buffer (final_state r1) ++ ["raise SystemExit"]))
    (final_state r1) = false
  /\ history (final_state r1) = ["x = 1"]
  /\ executions (trace (final_state r2))
     = [Code [Bind "x" (VObj "1")] Returns; Code [] (Exits SystemExit)]
  /\ history (final_state r2) = ["x = 1"].
Proof. vm_compute. auto 10. Qed.

(** * Further properties of the interpreter *)

(** ** The namespace callbacks *)

Section NamespaceMore.

Variable render : value -> string.

(** X1: After [synclocals] the namespace holds what it pulled: a second sync
    changes nothing, and the registries themselves are only read. *)
Theorem synclocals_idempotent (st : interp) :
  locals (synclocals (synclocals st)) = locals (synclocals st)
  /\ objects (synclocals st) = objects st
  /\ modules (synclocals st) = modules st
  /\ modules st ⊆ locals (synclocals st).
Proof.
  split; [|split; [reflexivity | split; [reflexivity|]]].
  - apply map_eq. intros k. unfold synclocals. simpl.
    rewrite !lookup_union.
    destruct (modules st !! k), (objects st !! k), (locals st !! k); reflexivity.
  - unfold synclocals. simpl. apply map_union_subseteq_l.
Qed.

(** X2: [setitem] writes under the bound name only and never removes an entry:
    apart from that name both registries are as they were, and every key
    they held is still there. *)
Theorem setitem_keeps_other_entries (key : string) (v : value) (st : interp) :
  delete key (objects (setitem key v st)) = delete key (objects st)
  /\ delete key (modules (setitem key v st)) = delete key (modules st)
  /\ dom (objects st) ⊆ dom (objects (setitem key v st))
  /\ dom (modules st) ⊆ dom (modules (setitem key v st)).
Proof.
  unfold setitem.
  destruct (ismodule v), (prevent_module_import st),
    (Nat.eqb (String.length key) 1),
    (String.eqb (PyStr.slice_to 2 key) "__");
    simpl; rewrite ?delete_insert_eq, ?dom_insert_L;
    repeat split; set_solver.
Qed.

(** X3: The length test of the suppression rule never decides: a name of one
    character cannot start with two underscores.  While the flag is on,
    [setitem] keeps a value that is not a module out of the object registry
    exactly when the first two characters of its name are [__], and then it
    does nothing at all; otherwise it stores the value in the registry. *)
Theorem setitem_length_test_never_decides (key : string) (v : value) (st : interp) :
  prevent_module_import st = true ->
  ismodule v = false ->
  setitem key v st =
    (if String.eqb (PyStr.slice_to 2 key) "__" then st else objects_setitem key v st)
  /\ private_name key = String.eqb (PyStr.slice_to 2 key) "__".
Proof.
  intros Hflag Hv. unfold setitem, private_name. rewrite Hv, Hflag.
  destruct key as [|a [|b k]]; simpl; auto.
  - destruct (Ascii.eqb a "_"); auto.
  - destruct (Ascii.eqb a "_"), (Ascii.eqb b "_"); auto.
Qed.

(** X4: Rebinding a name from an object to a module, the flag being off,
    registers the module and leaves the old object in the object registry:
    the name is then in both registries. *)
Theorem rebinding_as_module_keeps_object_entry
    (n m : string) (v : value) (st : interp) :
  prevent_module_import st = false ->
  ismodule v = false ->
  let st' := setitem n (VModule m) (setitem n v st) in
  objects st' !! n = Some v /\ modules st' !! n = Some (VModule m).
Proof.
  intros Hflag Hv. unfold setitem. rewrite Hv, Hflag. simpl.
  rewrite Hflag. simpl. rewrite !lookup_insert_eq. auto.
Qed.

(** X5: Deleting what was just bound, the flag being off, returns and takes the
    name out of the registry that [setitem] wrote to; the other registry is
    as before the binding. *)
Theorem delitem_after_setitem (key : string) (v : value) (st : interp) :
  prevent_module_import st = false ->
  exists st',
    delitem key v (setitem key v st) = Ok tt st'
    /\ (if ismodule v
        then modules st' !! key = None /\ objects st' = objects st
        else objects st' !! key = None /\ modules st' = modules st).
Proof.
  intros Hflag. unfold delitem, setitem. rewrite Hflag.
  destruct (ismodule v); simpl.
  - unfold modules_delitem. simpl. rewrite lookup_insert_eq.
    eexists. split; [reflexivity|]. simpl. rewrite lookup_delete_eq. auto.
  - unfold objects_delitem. simpl. rewrite lookup_insert_eq.
    eexists. split; [reflexivity|]. simpl. rewrite lookup_delete_eq. auto.
Qed.

(** X6: A module bound while the flag is on was never registered, so deleting
    it raises [KeyError] (unless the module registry held the name already),
    and nothing is changed. *)
Theorem delitem_of_suppressed_module_raises (key m : string) (st : interp) :
  prevent_module_import st = true ->
  modules st !! key = None ->
  delitem key (VModule m) (setitem key (VModule m) st) = Exn (KeyError key) st.
Proof.
  intros Hflag Hkey. unfold delitem, setitem. simpl. rewrite Hflag. simpl.
  unfold modules_delitem. rewrite Hkey. reflexivity.
Qed.

(** X7: A module bound by user code while the flag is on reaches the namespace
    only.  If the object registry holds that name, the next [synclocals]
    puts the registry's object back: the import is undone. *)
Theorem suppressed_import_undone_by_sync
    (n m : string) (v : value) (st : interp) :
  prevent_module_import st = true ->
  objects st !! n = Some v ->
  modules st !! n = None ->
  let st' := run_action render st (Bind n (VModule m)) in
  locals st' !! n = Some (VModule m)
  /\ locals (synclocals st') !! n = Some v.
Proof.
  intros Hflag Ho Hm. simpl. unfold setitem. simpl. rewrite Hflag. simpl.
  rewrite lookup_insert_eq. split; [reflexivity|].
  unfold synclocals. simpl. rewrite !lookup_union, Hm, Ho, lookup_insert_eq.
  reflexivity.
Qed.

End NamespaceMore.

Lemma setitem_length_test_never_decides_witness :
  setitem "__name__" (VObj "__main__") (with_flag true initial) = with_flag true initial
  /\ setitem "_" (VObj "1") (with_flag true initial)
     = objects_setitem "_" (VObj "1") (with_flag true initial).
Proof.
  split.
  - exact (proj1 (setitem_length_test_never_decides "__name__" (VObj "__main__")
                    (with_flag true initial) eq_refl eq_refl)).
  - exact (proj1 (setitem_length_test_never_decides "_" (VObj "1")
                    (with_flag true initial) eq_refl eq_refl)).
Defined.

Lemma rebinding_as_module_keeps_object_entry_witness :
  let st' := setitem "x" (VModule "numpy") (setitem "x" (VObj "1") initial) in
  objects st' !! "x" = Some (VObj "1") /\ modules st' !! "x" = Some (VModule "numpy").
Proof.
  exact (rebinding_as_module_keeps_object_entry "x" "numpy" (VObj "1") initial
           eq_refl eq_refl).
Defined.

Lemma delitem_after_setitem_witness :
  exists st',
    delitem "x" (VObj "1") (setitem "x" (VObj "1") initial) = Ok tt st'
    /\ objects st' !! "x" = None /\ modules st' = modules initial.
Proof.
  exact (delitem_after_setitem "x" (VObj "1") initial eq_refl).
Defined.

Lemma delitem_of_suppressed_module_raises_witness :
  delitem "os" (VModule "os") (setitem "os" (VModule "os") (with_flag true initial))
  = Exn (KeyError "os") (with_flag true initial).
Proof.
  exact (delitem_of_suppressed_module_raises "os" "os" (with_flag true initial)
           eq_refl eq_refl).
Defined.

Lemma suppressed_import_undone_by_sync_witness :
  let st := with_flag true (with_objects (<["x" := VObj "1"]> ∅) initial) in
  let st' := run_action sample_render st (Bind "x" (VModule "numpy")) in
  locals st' !! "x" = Some (VModule "numpy")
  /\ locals (synclocals st') !! "x" = Some (VObj "1").
Proof.
  exact (suppressed_import_undone_by_sync sample_render "x" "numpy" (VObj "1")
           (with_flag true (with_objects (<["x" := VObj "1"]> ∅) initial))
           eq_refl eq_refl eq_refl).
Defined.

(** ** The output router *)

Section OutputMore.

Variable render : value -> string.

Import PyStr PyStrFacts.

(** The test [write] makes on an item before collapsing it. *)
Definition has_cr (r : value) : bool :=
  is_str r && contains chr_cr (py_str render r).

(** X8: [write] is an output operation only: the namespace, both registries,
    the input buffer, the history, the flag and the recorded cursor position
    are after it what they were before. *)
Theorem write_touches_only_display (args : list value) (tg : tags) (st : interp) :
  let st' := write render args tg st in
  locals st' = locals st
  /\ objects st' = objects st
  /\ modules st' = modules st
  /\ buffer st' = buffer st
  /\ history st' = history st
  /\ prevent_module_import st' = prevent_module_import st
  /\ cursor_position st' = cursor_position st.
Proof.
  cbv zeta.
  destruct (steady_write render args tg st) as (Hb & Hh & Hf & Hc & _).
  assert (Hs : locals (write render args tg st) = locals st
               /\ objects (write render args tg st) = objects st
               /\ modules (write render args tg st) = modules st).
  { unfold write.
    destruct (prevent_module_import st); [auto|].
    destruct (match args with [a] => quiet a | _ => false end); [auto|].
    destruct (write_items_stores render (length args) args (st, tg)) as (H1 & H2 & H3).
    simpl in H1, H2, H3.
    destruct (negb (is_blank _)); simpl; auto. }
  destruct Hs as (H1 & H2 & H3). auto 10.
Qed.

Lemma write_item_appends (n : nat) (st : interp) (tg : tags) (r : value) :
  has_cr r = false ->
  exists t, display (fst (write_item render n (st, tg) r)) = display st +:+ t.
Proof.
  intros H. unfold write_item. fold (has_cr r). rewrite H.
  destruct r, (Nat.ltb 1 n); simpl;
    first [ exists ""; rewrite app_empty_r; reflexivity
          | eexists; rewrite ?app_assoc; reflexivity ].
Qed.

Lemma write_items_append (n : nat) (args : list value) (acc : interp * tags) :
  Forall (fun r => has_cr r = false) args ->
  exists t, display (fst (fold_left (write_item render n) args acc))
            = display (fst acc) +:+ t.
Proof.
  intros H. revert acc. induction H as [|r args Hr _ IH]; intros acc; simpl.
  - exists "". rewrite app_empty_r. reflexivity.
  - destruct acc as [st tg].
    destruct (write_item_appends n st tg r Hr) as [t1 Ht1].
    destruct (IH (write_item render n (st, tg) r)) as [t2 Ht2].
    exists (t1 +:+ t2). rewrite Ht2, Ht1, app_assoc. reflexivity.
Qed.

Lemma write_appends (args : list value) (tg : tags) (st : interp) :
  Forall (fun r => has_cr r = false) args ->
  exists t, display (write render args tg st) = display st +:+ t.
Proof.
  intros H. unfold write.
  destruct (prevent_module_import st);
    [exists ""; rewrite app_empty_r; reflexivity|].
  destruct (match args with [a] => quiet a | _ => false end);
    [exists ""; rewrite app_empty_r; reflexivity|].
  destruct (write_items_append (length args) args (st, tg) H) as [t Ht].
  simpl in Ht.
  destruct (negb (is_blank _)); simpl; rewrite Ht.
  - exists (t +:+ nl). rewrite app_assoc. reflexivity.
  - exists t. reflexivity.
Qed.

(** X9: Without a carriage return among its items [write] only appends: what
    the display held is still there, in front of what was written. *)
Theorem write_only_appends_without_cr (args : list value) (tg : tags) (st : interp) :
  Forall (fun r => has_cr r = false) args ->
  exists t, display (write render args tg st) = display st +:+ t.
Proof. apply write_appends. Qed.

Lemma slice_to_app (n : nat) (s t : string) :
  n <= String.length s -> slice_to n (s +:+ t) = slice_to n s.
Proof.
  revert s. induction n as [|n IH]; intros s Hn.
  - destruct s; reflexivity.
  - destruct s as [|a s]; simpl in Hn; [lia|].
    rewrite app_cons. simpl. rewrite IH by lia. reflexivity.
Qed.

(** The display after a [write] of one string with a carriage return. *)
Lemma write_cr_display (s : string) (tg : tags) (st : interp) :
  prevent_module_import st = false ->
  contains chr_cr s = true ->
  display (write render [VStr s] tg st) =
    (let shown := slice_to (cursor_position st) (display st)
                  +:+ nl +:+ rsplit1_last chr_cr s in
     if is_blank shown then shown else shown +:+ nl).
Proof.
  intros Hflag Hcr.
  rewrite (write_single render s tg st Hflag (quiet_has_no_cr s Hcr)).
  rewrite (write_item_cr render 1 st tg s Hcr). cbv zeta.
  change (Nat.ltb 1 1) with false. cbv iota.
  assert (Hd : display
    (text_insert (rsplit1_last chr_cr s)
       (tk_tags (tags_for (rsplit1_last chr_cr s) tg))
       (text_insert nl [] (text_delete (cursor_position st) st)))
    = slice_to (cursor_position st) (display st) +:+ nl +:+ rsplit1_last chr_cr s).
  { simpl. rewrite !app_assoc. reflexivity. }
  unfold fst. rewrite Hd.
  destruct (is_blank _); simpl.
  - rewrite !app_assoc. reflexivity.
  - rewrite !app_assoc. reflexivity.
Qed.

(** X10: A string with a carriage return erases what was written since the
    cursor position was recorded: whatever an earlier [write] appended to
    the display leaves no mark on it. *)
Theorem write_cr_erases_earlier_output
    (args : list value) (tg tg' : tags) (s : string) (st : interp) :
  prevent_module_import st = false ->
  cursor_position st <= String.length (display st) ->
  Forall (fun r => has_cr r = false) args ->
  contains chr_cr s = true ->
  display (write render [VStr s] tg' (write render args tg st))
  = display (write render [VStr s] tg' st).
Proof.
  intros Hflag Hcur Hargs Hcr.
  destruct (steady_write render args tg st) as (_ & _ & Hf & Hc & _).
  destruct (write_appends args tg st Hargs) as [t Ht].
  rewrite !write_cr_display by congruence.
  rewrite Hc, Ht, slice_to_app by exact Hcur. reflexivity.
Qed.

Lemma write_strings_fold (n : nat) (ss : list string) (st : interp) (tg : tags) :
  Nat.ltb 1 n = true ->
  Forall (fun s => contains chr_cr s = false) ss ->
  display (fst (fold_left (write_item render n) (map VStr ss) (st, tg)))
  = display st +:+ join (map (fun s => s +:+ tab) ss).
Proof.
  intros Hn H. revert st tg.
  induction H as [|s ss Hs _ IH]; intros st tg; cbn [map fold_left join].
  - rewrite app_empty_r. reflexivity.
  - rewrite (write_item_plain render n st tg s Hs). cbv zeta. rewrite Hn.
    rewrite IH. simpl. rewrite !app_assoc. reflexivity.
Qed.

(** X11: A call with several strings puts a tab after every one of them, the
    last included, and then the closing newline of a non-blank display. *)
Theorem write_puts_tab_after_every_item (ss : list string) (tg : tags) (st : interp) :
  prevent_module_import st = false ->
  2 <= length ss ->
  Forall (fun s => contains chr_cr s = false) ss ->
  display (write render (map VStr ss) tg st) =
    (let shown := display st +:+ join (map (fun s => s +:+ tab) ss) in
     if is_blank shown then shown else shown +:+ nl).
Proof.
  intros Hflag Hlen Hcr. unfold write. rewrite Hflag.
  assert (Hq : match map VStr ss with [a] => quiet a | _ => false end = false).
  { destruct ss as [|a [|b ss]]; simpl in *; try lia; reflexivity. }
  rewrite Hq.
  assert (Hn : Nat.ltb 1 (length (map VStr ss)) = true).
  { rewrite length_map. apply Nat.ltb_lt. lia. }
  rewrite (write_strings_fold _ ss st tg Hn Hcr). cbv zeta.
  destruct (is_blank _) eqn:Hb; simpl.
  - apply (write_strings_fold _ ss st tg Hn Hcr).
  - rewrite (write_strings_fold _ ss st tg Hn Hcr). reflexivity.
Qed.

(** X12: An exception instance is inserted with the tag [red], whatever tags the
    caller passed. *)
Theorem write_exception_is_red (e : exc) (l : list string) (st : interp) :
  prevent_module_import st = false ->
  exists tgs,
    In "red" tgs
    /\ In (EvInsert (render (VExc e)) tgs) (trace (write render [VExc e] (TTuple l) st)).
Proof.
  intros Hflag. unfold write. rewrite Hflag.
  change (match [VExc e] with [a] => quiet a | _ => false end) with false.
  cbv iota. unfold write_item. simpl.
  set (tg := if re_traceback (render (VExc e)) || re_exception (render (VExc e))
             then TTuple ("red" :: l) else TTuple l).
  exists (iter_tags tg ++ ["red"])%list. split.
  - apply in_app_iff. right. left. reflexivity.
  - destruct (negb (is_blank _)); simpl; rewrite !in_app_iff; simpl; tauto.
Qed.


End OutputMore.

Lemma write_only_appends_without_cr_witness :
  exists t,
    display (write sample_render [VStr "a"; VNone; VObj "3"] (TTuple [])
               (with_display "xyz" initial))
    = "xyz" +:+ t.
Proof.
  apply (write_only_appends_without_cr sample_render).
  repeat constructor.
Defined.

Lemma write_puts_tab_after_every_item_witness :
  display (write sample_render (map VStr ["a"; "b"]) (TTuple []) initial)
  = "a" +:+ PyStr.tab +:+ "b" +:+ PyStr.tab +:+ PyStr.nl.
Proof.
  apply (write_puts_tab_after_every_item sample_render ["a"; "b"] (TTuple []) initial).
  - reflexivity.
  - simpl. lia.
  - repeat constructor.
Defined.

Lemma write_exception_is_red_witness :
  exists tgs,
    In "red" tgs
    /\ In (EvInsert "boom" tgs)
          (trace (write sample_render [VExc (Exc "ValueError" "boom")] (TTuple []) initial)).
Proof.
  exact (write_exception_is_red sample_render (Exc "ValueError" "boom") [] initial eq_refl).
Defined.


Lemma write_cr_erases_earlier_output_witness :
  display (write sample_render [VStr ("50%" +:+ PyStr.cr +:+ "100%")] (TTuple [])
             (write sample_render [VStr "hello"] (TTuple [])
                (with_cursor 4 (with_display ("xyz" +:+ PyStr.nl) initial))))
  = display (write sample_render [VStr ("50%" +:+ PyStr.cr +:+ "100%")] (TTuple [])
               (with_cursor 4 (with_display ("xyz" +:+ PyStr.nl) initial))).
Proof.
  apply (write_cr_erases_earlier_output sample_render).
  - reflexivity.
  - simpl. lia.
  - repeat constructor.
  - reflexivity.
Defined.

(** ** The execution engine *)

Section EngineMore.

Variable compile : string -> string -> string -> compiled.
Variable render : value -> string.

Import PyStr PyStrFacts.

#[local] Arguments slice_to : simpl never.
#[local] Arguments slice_from : simpl never.
#[local] Arguments join : simpl never.
#[local] Arguments last_line_start : simpl never.
#[local] Arguments String.eqb : simpl never.

(** While the flag is on nothing a source does reaches the display,
    whether it runs, fails to compile, raises or exits. *)
Lemma runsource_suppressed (source filename symbol : string) (st : interp) :
  prevent_module_import st = true ->
  display (final_state (runsource compile render source filename symbol st))
  = display st.
Proof.
  intros Hflag. rewrite runsource_eq. cbv zeta.
  destruct (compile source filename symbol) as [c | | e tb | e].
  - rewrite runcode_eq.
    assert (Hflag' : prevent_module_import
              (after_actions render c (log (EvCompile source filename symbol) st)) = true).
    { rewrite after_actions_flag. exact Hflag. }
    assert (Hd : display
              (after_actions render c (log (EvCompile source filename symbol) st))
              = display st).
    { unfold after_actions. rewrite run_actions_suppressed by exact Hflag.
      reflexivity. }
    destruct (final c) as [|e tb|e]; simpl; try exact Hd.
    rewrite write_while_suppressed by exact Hflag'. exact Hd.
  - reflexivity.
  - simpl. rewrite write_while_suppressed by exact Hflag. reflexivity.
  - reflexivity.
Qed.

Lemma private_name_not_registered (n : string) :
  private_name n = true ->
  Nat.eqb (String.length n) 1 || negb (String.eqb (slice_to 2 n) "__") = false.
Proof.
  unfold private_name. intros H. apply andb_true_iff in H as [H1 H2].
  rewrite H2. apply negb_true_iff in H1. rewrite H1. reflexivity.
Qed.

Lemma run_action_suppressed_registries (a : action) (st : interp) :
  prevent_module_import st = true ->
  modules (run_action render st a) = modules st
  /\ forall k, private_name k = true ->
       objects (run_action render st a) !! k = objects st !! k.
Proof.
  intros Hflag. destruct a as [n v | args].
  - cbn [run_action]. unfold setitem. simpl. rewrite Hflag. simpl.
    destruct (ismodule v); [auto|].
    destruct (Nat.eqb (String.length n) 1 || negb (String.eqb (slice_to 2 n) "__"))
      eqn:Hn; [|auto].
    simpl. split; [reflexivity|]. intros k Hk.
    destruct (decide (n = k)) as [-> | Hne].
    + rewrite (private_name_not_registered k Hk) in Hn. discriminate Hn.
    + apply lookup_insert_ne. exact Hne.
  - cbn [run_action]. rewrite write_while_suppressed by exact Hflag. auto.
Qed.

Lemma run_actions_suppressed_registries (l : list action) (st : interp) :
  prevent_module_import st = true ->
  modules (fold_left (run_action render) l st) = modules st
  /\ forall k, private_name k = true ->
       objects (fold_left (run_action render) l st) !! k = objects st !! k.
Proof.
  revert st. induction l as [|a l IH]; intros st Hflag; [simpl; auto|].
  cbn [fold_left].
  destruct (run_action_suppressed_registries a st Hflag) as [Hm Ho].
  destruct (IH (run_action render st a)) as [Hm' Ho'].
  { destruct (steady_run_action render st a) as (_ & _ & Hf & _). congruence. }
  split; [congruence|]. intros k Hk. rewrite Ho', Ho by exact Hk. reflexivity.
Qed.

Lemma exec_final_state (source filename : string) (st : interp) :
  let r := runsource compile render source filename "exec" (before_exec source st) in
  final_state (exec compile render source filename st) =
    if returns r
    then log (EvSetFlag false) (with_flag false (log (EvPostprocess source) (final_state r)))
    else final_state r.
Proof.
  cbv zeta. rewrite exec_eq.
  destruct (runsource compile render source filename "exec" _); reflexivity.
Qed.

(** X14: Nothing reaches the display while a block is run through [exec]: not
    what the block prints, not the traceback of an exception it raises, not
    the report of a syntax error; and this whether [exec] returns or is left
    by an exception, the [SystemExit] of the block or an exception of the
    compiler that is not caught. *)
Theorem exec_never_changes_display (source filename : string) (st : interp) :
  display (final_state (exec compile render source filename st)) = display st.
Proof.
  rewrite exec_final_state. cbv zeta.
  pose proof (runsource_suppressed source filename "exec" (before_exec source st) eq_refl)
    as Hd.
  destruct (returns _); simpl; rewrite Hd; reflexivity.
Qed.

(** X15: No binding made by a block run through [exec] reaches the module
    registry, and none reaches the object registry under a private name:
    after [exec] the module registry is what it was, and so is the object
    registry at every name longer than one character that starts with two
    underscores. *)
Theorem exec_never_registers_modules (source filename : string) (st : interp) :
  let st' := final_state (exec compile render source filename st) in
  modules st' = modules st
  /\ forall k, private_name k = true -> objects st' !! k = objects st !! k.
Proof.
  cbv zeta. rewrite exec_final_state. cbv zeta.
  assert (H : modules (final_state
                (runsource compile render source filename "exec" (before_exec source st)))
              = modules st
              /\ forall k, private_name k = true ->
                   objects (final_state
                     (runsource compile render source filename "exec"
                        (before_exec source st))) !! k = objects st !! k).
  { rewrite runsource_eq. cbv zeta.
    destruct (compile source filename "exec") as [c | | e tb | e].
    - rewrite runcode_eq. unfold after_actions.
      destruct (run_actions_suppressed_registries (acts c)
                  (log (EvExec c)
                     (log (EvCompile source filename "exec") (before_exec source st)))
                  eq_refl) as [Hm Ho].
      destruct (final c) as [|e tb|e]; cbn [final_state modules objects log].
      + split; [exact Hm | exact Ho].
      + match goal with |- context [write render ?a ?t ?s] =>
          destruct (write_registries render a t s) as [Wm Wo] end.
        rewrite Wm, Wo. split; [exact Hm | exact Ho].
      + split; [exact Hm | exact Ho].
    - simpl. auto.
    - cbn [final_state modules objects log].
      match goal with |- context [write render ?a ?t ?s] =>
        destruct (write_registries render a t s) as [Wm Wo] end.
      rewrite Wm, Wo. simpl. auto.
    - simpl. auto. }
  destruct H as [Hm Ho].
  destruct (returns _); simpl; auto.
Qed.

(** X16: [exec] hands its source to the compiler exactly once and runs what
    comes back at most once, whatever the outcome; the input buffer of the
    console, its history and the recorded cursor position are not
    touched. *)
Theorem exec_compiles_once (source filename : string) (st : interp) :
  let st' := final_state (exec compile render source filename st) in
  compilations (trace st') = (compilations (trace st) ++ [source])%list
  /\ executions (trace st') =
       (executions (trace st) ++ compiled_code (compile source filename "exec"))%list
  /\ buffer st' = buffer st
  /\ history st' = history st
  /\ cursor_position st' = cursor_position st.
Proof.
  cbv zeta. rewrite exec_final_state. cbv zeta.
  destruct (runsource_frame_all compile render source filename "exec"
              (before_exec source st))
    as (Hb & Hh & _ & Hc & l & Hl & He & Hs).
  assert (Ht : trace (before_exec source st)
               = (trace st ++ [EvSetFlag true; EvSync; EvPreprocess source])%list).
  { unfold before_exec. simpl. rewrite <- !List.app_assoc. reflexivity. }
  destruct (returns _); simpl; rewrite ?Hb, ?Hh, ?Hc, Hl, Ht;
    rewrite !executions_app, !compilations_app; simpl;
    change (executions (EvCompile source filename "exec" :: l)) with (executions l);
    change (compilations (EvCompile source filename "exec" :: l))
      with (source :: compilations l);
    rewrite He, Hs, ?List.app_nil_r; auto.
Qed.

(** *** Submissions through [push] *)

#[local] Arguments runsource : simpl never.

(** X17: What a submission does to the input buffer and to the compiler, in
    every case.  The deletion shortcut leaves the buffer alone and nothing
    is compiled or run.  Otherwise the accumulated source is compiled once,
    and run once if it is complete; an incomplete line is buffered, a
    complete or an invalid one empties the buffer.  [push] is left by an
    exception in two cases only, when the code raises [SystemExit] and when
    the compiler raises an exception that [runsource] does not catch, and
    then the buffer is as before the call. *)
Theorem push_state_machine (s filename symbol : string) (st : interp) :
  let source := join (buffer st ++ [s]) in
  let r := push compile render s filename symbol st in
  let st' := final_state r in
  if del_shortcut source st then
    r = Ok tt st'
    /\ buffer st' = buffer st
    /\ compilations (trace st') = compilations (trace st)
    /\ executions (trace st') = executions (trace st)
  else
    compilations (trace st') = (compilations (trace st) ++ [source])%list
    /\ executions (trace st') =
         (executions (trace st) ++ compiled_code (compile source filename symbol))%list
    /\ match compile source filename symbol with
       | Incomplete =>
           r = Ok tt st'
           /\ buffer st' = (buffer st ++ [s +:+ nl])%list
       | Invalid _ _ =>
           r = Ok tt st'
           /\ buffer st' = []
       | Fails e =>
           r = Exn e st'
           /\ buffer st' = buffer st
       | Complete c =>
           match final c with
           | Exits e =>
               r = Exn e st'
               /\ buffer st' = buffer st
           | _ =>
               r = Ok tt st'
               /\ buffer st' = []
           end
       end.
Proof.
  cbv zeta. destruct (del_shortcut (join (buffer st ++ [s])) st) eqn:Hdel.
  - destruct (push_shortcut_effect compile render s filename symbol st Hdel)
      as (H1 & _ & _ & H4 & H5 & _ & H7). auto.
  - destruct (push_cases compile render s filename symbol st Hdel) as (H1 & H2 & H3).
    split; [exact H1|]. split; [exact H2|].
    destruct (compile (join (buffer st ++ [s])) filename symbol) as [c | | e tb | e];
      [destruct (final c)| | |]; destruct H3 as (Hr & Hb & _); auto.
Qed.

Lemma last_line_start_le (s : string) : last_line_start s <= String.length s.
Proof.
  induction s as [|a s IH]; [reflexivity|].
  change (last_line_start (String a s))
    with (if contains chr_nl (String a s) then S (last_line_start s) else 0).
  change (String.length (String a s)) with (S (String.length s)).
  destruct (contains chr_nl (String a s)); lia.
Qed.

(** X18: Every submission first records where the last line of the display
    starts (a position inside the display), syncs the namespace and calls
    the pre-processing hook with the accumulated source; it leaves the
    suppression flag as it found it; and when it returns, the last thing it
    did was to call the prompt. *)
Theorem push_bookkeeping (s filename symbol : string) (st : interp) :
  let r := push compile render s filename symbol st in
  let st' := final_state r in
  cursor_position st' = last_line_start (display st)
  /\ cursor_position st' <= String.length (display st)
  /\ prevent_module_import st' = prevent_module_import st
  /\ (exists l, trace st' =
        (trace st ++ EvSync :: EvPreprocess (join (buffer st ++ [s])) :: l)%list)
  /\ (returns r = true -> last (trace st') = Some EvPrompt).
Proof.
  cbv zeta.
  assert (H : cursor_position (final_state (push compile render s filename symbol st))
              = last_line_start (display st)
              /\ prevent_module_import (final_state (push compile render s filename symbol st))
                 = prevent_module_import st
              /\ (exists l, trace (final_state (push compile render s filename symbol st)) =
                    (trace st ++ EvSync :: EvPreprocess (join (buffer st ++ [s])) :: l)%list)
              /\ (returns (push compile render s filename symbol st) = true ->
                  last (trace (final_state (push compile render s filename symbol st)))
                  = Some EvPrompt)).
  { rewrite push_eq. cbv zeta.
    destruct (del_shortcut (join (buffer st ++ [s])) st).
    - simpl. repeat split.
      + eexists. rewrite <- !List.app_assoc. reflexivity.
      + intros _. apply last_snoc.
    - destruct (runsource_frame_all compile render (join (buffer st ++ [s])) filename
                  symbol (before_compile s st)) as (_ & _ & Hf & Hc & l & Hl & _ & _).
      destruct (before_compile_trace s st) as (l0 & Bl & _).
      rewrite before_compile_flag in Hf. rewrite before_compile_cursor in Hc.
      rewrite Bl, <- List.app_assoc in Hl. simpl in Hl.
      destruct (runsource compile render (join (buffer st ++ [s])) filename symbol
                  (before_compile s st)) as [[|] st1 | e st1];
        simpl in Hf, Hc, Hl |- *; rewrite Hl; repeat split; try assumption.
      + eexists. rewrite <- !List.app_assoc. reflexivity.
      + intros _. apply last_snoc.
      + eexists. rewrite <- !List.app_assoc. simpl. reflexivity.
      + intros _. apply last_snoc.
      + eexists. reflexivity.
      + discriminate. }
  destruct H as (H1 & H2 & H3 & H4).
  split; [exact H1|]. split; [rewrite H1; apply last_line_start_le|]. auto.
Qed.

(** X19: The shortcut does not look at the fourth character of the source: when
    the accumulated source starts with [del], any one character follows, and
    the rest is a key of the object registry, that object is deleted and the
    source is neither compiled nor run.  Submitting the name [delta] while
    an object [a] exists deletes [a]. *)
Theorem del_shortcut_ignores_fourth_character
    (s x filename symbol : string) (a : ascii) (st : interp) :
  join (buffer st ++ [s]) = "del" +:+ String a x ->
  is_Some (objects st !! x) ->
  exists st',
    push compile render s filename symbol st = Ok tt st'
    /\ objects st' = delete x (objects st)
    /\ compilations (trace st') = compilations (trace st)
    /\ executions (trace st') = executions (trace st).
Proof.
  intros Hsrc Hin.
  assert (Hdel : del_shortcut (join (buffer st ++ [s])) st = true).
  { rewrite Hsrc. unfold del_shortcut.
    change (slice_to 3 ("del" +:+ String a x)) with "del".
    change (slice_from 4 ("del" +:+ String a x)) with x.
    rewrite bool_decide_eq_true_2 by exact Hin. reflexivity. }
  rewrite push_eq. cbv zeta. rewrite Hdel, Hsrc.
  change (slice_from 4 ("del" +:+ String a x)) with x.
  eexists. split; [reflexivity|]. simpl.
  rewrite <- !List.app_assoc, !executions_app, !compilations_app. simpl.
  rewrite !List.app_nil_r. auto.
Qed.

(** X20: A source that does not compile is reported on the display like an
    exception of user code: the flag being off, the text of the error (what
    follows its last carriage return, if it holds one) is inserted with the
    tag [red] and the console view is brought into focus.  Nothing is run,
    and the lines buffered so far are dropped. *)
Theorem push_invalid_source_is_reported
    (s filename symbol : string) (e : exc) (tb : list frame) (st : interp) :
  prevent_module_import st = false ->
  starts_like_name (exc_type e) = true ->
  del_shortcut (join (buffer st ++ [s])) st = false ->
  compile (join (buffer st ++ [s])) filename symbol = Invalid e tb ->
  let text := traceback_text e tb in
  exists st',
    push compile render s filename symbol st = Ok tt st'
    /\ (exists kept, display st' = kept +:+ shown text +:+ nl)
    /\ (exists tgs, In "red" tgs /\ In (EvInsert (shown text) tgs) (trace st'))
    /\ In (EvSetView "console" true) (trace st')
    /\ executions (trace st') = executions (trace st)
    /\ buffer st' = [].
Proof.
  intros Hflag Hname Hdel Hc text.
  rewrite (push_invalid compile render s filename symbol e tb st Hdel Hc).
  cbv zeta. fold text.
  set (st0 := log (EvCompile (join (buffer st ++ [s])) filename symbol)
                  (before_compile s st)).
  assert (Hflag' : prevent_module_import st0 = false).
  { unfold st0. simpl. rewrite before_compile_flag. exact Hflag. }
  destruct (traceback_text_visible e tb Hname) as [H1 H2]. fold text in H1, H2.
  destruct (write_shown render text (TStr "red") st0 Hflag' H1 H2) as [Hd Ht].
  destruct (before_compile_frame s st) as (_ & _ & _ & _ & l & Bl & Be & _).
  eexists. split; [reflexivity|].
  cbn [display trace buffer log with_buffer with_history history_extend].
  split; [rewrite Hd; eauto|]. split; [|split; [|split]].
  - exists (tk_tags (tags_for (shown text) (TStr "red"))).
    split; [apply red_in_tags_for|].
    rewrite Ht. rewrite !in_app_iff. simpl. tauto.
  - rewrite !in_app_iff. simpl. tauto.
  - rewrite Ht. unfold st0. cbn [trace log]. rewrite Bl.
    rewrite !executions_app, Be. simpl.
    destruct (contains chr_cr text); simpl; rewrite !List.app_nil_r; reflexivity.
  - reflexivity.
Qed.

(** X21: A source that starts with [plot] makes [push] call the prompt before
    the source is handed to the compiler (and again at the end, like every
    submission that returns). *)
Theorem push_plot_prompts_before_compiling (s filename symbol : string) (st : interp) :
  slice_to 4 (join (buffer st ++ [s])) = "plot" ->
  let source := join (buffer st ++ [s]) in
  let r := push compile render s filename symbol st in
  exists l,
    trace (final_state r) =
      (trace st ++
       [EvSync; EvPreprocess source; EvPrompt; EvCompile source filename symbol] ++ l)%list
    /\ compilations l = [].
Proof.
  intros Hplot. cbv zeta.
  assert (Hdel : del_shortcut (join (buffer st ++ [s])) st = false).
  { unfold del_shortcut.
    destruct (join (buffer st ++ [s])) as [|a [|b [|c [|d r]]]]; try discriminate Hplot.
    injection Hplot as -> -> -> ->. reflexivity. }
  rewrite push_eq. cbv zeta. rewrite Hdel.
  destruct (runsource_frame_all compile render (join (buffer st ++ [s])) filename symbol
              (before_compile s st)) as (_ & _ & _ & _ & l & Hl & _ & Hs).
  destruct (before_compile_trace s st) as (l0 & Bl & El).
  rewrite Hplot in El. change (String.eqb "plot" "plot") with true in El.
  cbv iota in El. subst l0. rewrite Bl, <- List.app_assoc in Hl. simpl in Hl.
  destruct (runsource compile render (join (buffer st ++ [s])) filename symbol
              (before_compile s st)) as [[|] st1 | e st1];
    simpl in Hl |- *; rewrite Hl.
  - exists (l ++ [EvPrompt])%list. rewrite <- !List.app_assoc. simpl.
    rewrite compilations_app, Hs. auto.
  - exists (l ++ [EvPostprocess (join (buffer st ++ [s])); EvPrompt])%list.
    rewrite <- !List.app_assoc. simpl.
    rewrite compilations_app, Hs. auto.
  - exists l. auto.
Qed.



End EngineMore.

Lemma exec_never_registers_modules_witness :
  let st' := final_state (exec sample_compile sample_render "import os" "<file>" initial) in
  modules st' = modules initial
  /\ objects st' !! "__name__" = objects initial !! "__name__".
Proof.
  destruct (exec_never_registers_modules sample_compile sample_render
              "import os" "<file>" initial) as [Hm Ho].
  split; [exact Hm | apply Ho; reflexivity].
Defined.

Lemma push_bookkeeping_witness :
  let r := push sample_compile sample_render "x = 1" "<input>" "single"
             (with_display ("a" +:+ PyStr.nl +:+ "b") initial) in
  cursor_position (final_state r) = 2
  /\ last (trace (final_state r)) = Some EvPrompt.
Proof.
  destruct (push_bookkeeping sample_compile sample_render "x = 1" "<input>" "single"
              (with_display ("a" +:+ PyStr.nl +:+ "b") initial))
    as (H1 & _ & _ & _ & H2).
  split; [exact H1 | apply H2; reflexivity].
Defined.

Lemma del_shortcut_ignores_fourth_character_witness :
  exists st',
    push sample_compile sample_render "delta" "<input>" "single"
      (with_objects (<["a" := VObj "1"]> ∅) initial) = Ok tt st'
    /\ objects st' = delete "a" (<["a" := VObj "1"]> ∅)
    /\ compilations (trace st') = []
    /\ executions (trace st') = [].
Proof.
  destruct (del_shortcut_ignores_fourth_character sample_compile sample_render
              "delta" "a" "<input>" "single" "t"%char
              (with_objects (<["a" := VObj "1"]> ∅) initial))
    as (st' & H1 & H2 & H3 & H4).
  - reflexivity.
  - exists (VObj "1"). reflexivity.
  - exists st'. split; [exact H1|]. split; [exact H2|]. split; [exact H3 | exact H4].
Defined.

Lemma push_invalid_source_is_reported_witness :
  exists st',
    push sample_compile sample_render "x = = 1" "<input>" "single" initial = Ok tt st'
    /\ (exists kept, display st' =
          kept +:+ shown (traceback_text (SyntaxError "<input>") codeop_frames)
               +:+ PyStr.nl)
    /\ buffer st' = [].
Proof.
  destruct (push_invalid_source_is_reported sample_compile sample_render
              "x = = 1" "<input>" "single" (SyntaxError "<input>") codeop_frames initial
              eq_refl eq_refl eq_refl eq_refl)
    as (st' & H1 & H2 & _ & _ & _ & H3).
  exists st'. auto.
Defined.

Lemma push_plot_prompts_before_compiling_witness :
  exists l,
    trace (final_state
             (push sample_compile sample_render "plot(x)" "<input>" "single" initial)) =
      ([EvSync; EvPreprocess "plot(x)"; EvPrompt;
        EvCompile "plot(x)" "<input>" "single"] ++ l)%list
    /\ compilations l = [].
Proof.
  exact (push_plot_prompts_before_compiling sample_compile sample_render
           "plot(x)" "<input>" "single" initial eq_refl).
Defined.


(** ** The exception pattern *)

(** Every character is a letter of [A-Za-z]. *)
Fixpoint all_letters (s : string) : bool :=
  match s with
  | "" => true
  | String a s' => PyStr.is_letter a && all_letters s'
  end.

Section PatternMore.

Variable render : value -> string.

Import PyStr PyStrFacts.

Lemma str_prefix_app (p r : string) : String.prefix p (p +:+ r) = true.
Proof.
  induction p as [|a p IH].
  - destruct r; reflexivity.
  - rewrite app_cons. simpl. destruct (ascii_dec a a); [exact IH | congruence].
Qed.

Lemma str_prefix_inv (p s : string) :
  String.prefix p s = true -> exists r, s = p +:+ r.
Proof.
  revert s. induction p as [|a p IH]; intros s H.
  - exists s. reflexivity.
  - destruct s as [|b s]; [discriminate H|]. simpl in H.
    destruct (ascii_dec a b) as [-> | _]; [|discriminate H].
    destruct (IH s H) as [r ->]. exists r. rewrite app_cons. reflexivity.
Qed.

Lemma re_exception_cons (a : ascii) (s : string) :
  re_exception (String a s) =
    String.prefix "Error:" (String a s) || (is_letter a && re_exception s).
Proof. reflexivity. Qed.

Lemma re_exception_sound (s : string) :
  re_exception s = true ->
  exists name rest, all_letters name = true /\ s = name +:+ "Error:" +:+ rest.
Proof.
  induction s as [|a s IH]; intros H; [discriminate H|].
  rewrite re_exception_cons in H. apply orb_true_iff in H as [H | H].
  - destruct (str_prefix_inv _ _ H) as [r Hr].
    exists "", r. split; [reflexivity | exact Hr].
  - apply andb_true_iff in H as [Ha Hs].
    destruct (IH Hs) as (n & r & Hn & ->).
    exists (String a n), r. split.
    + simpl. rewrite Ha, Hn. reflexivity.
    + rewrite app_cons. reflexivity.
Qed.

Lemma re_exception_complete (name rest : string) :
  all_letters name = true -> re_exception (name +:+ "Error:" +:+ rest) = true.
Proof.
  induction name as [|a n IH]; intros Hn.
  - rewrite app_empty_l.
    change ("Error:" +:+ rest) with (String "E" ("rror:" +:+ rest)).
    rewrite re_exception_cons.
    change (String "E" ("rror:" +:+ rest)) with ("Error:" +:+ rest).
    rewrite str_prefix_app. reflexivity.
  - simpl in Hn. apply andb_true_iff in Hn as [Ha Hn].
    rewrite app_cons, re_exception_cons, Ha, (IH Hn). apply orb_true_r.
Qed.

(** X23: The pattern [^()([A-Za-z]*Error:)] matches a text exactly when the
    text is a run of letters, possibly empty, followed by [Error:] and by
    anything. *)
Theorem re_exception_spec (s : string) :
  re_exception s = true <->
  exists name rest, all_letters name = true /\ s = name +:+ "Error:" +:+ rest.
Proof.
  split.
  - apply re_exception_sound.
  - intros (n & r & Hn & ->). apply re_exception_complete. exact Hn.
Qed.

Lemma error_line_starts_like_name (name rest : string) :
  all_letters name = true -> starts_like_name (name +:+ "Error:" +:+ rest) = true.
Proof.
  destruct name as [|a n]; intros Hn; [reflexivity|].
  simpl in Hn. apply andb_true_iff in Hn as [Ha _].
  rewrite app_cons. simpl. rewrite Ha. reflexivity.
Qed.

(** X24: A printed line that looks like the last line of a traceback, letters
    followed by [Error:], is inserted with the tag [red] in front of the
    caller's tags, whoever printed it. *)
Theorem write_error_line_is_red (name rest : string) (tg : tags) (st : interp) :
  prevent_module_import st = false ->
  all_letters name = true ->
  contains chr_cr (name +:+ "Error:" +:+ rest) = false ->
  In (EvInsert (name +:+ "Error:" +:+ rest) ("red" :: iter_tags tg))
     (trace (write render [VStr (name +:+ "Error:" +:+ rest)] tg st)).
Proof.
  intros Hflag Hn Hcr.
  set (s := name +:+ "Error:" +:+ rest) in *.
  assert (Hname : starts_like_name s = true)
    by (apply error_line_starts_like_name; exact Hn).
  assert (Hre : re_exception s = true) by (apply re_exception_complete; exact Hn).
  rewrite (write_single render s tg st Hflag (name_is_not_quiet s Hname)).
  rewrite (write_item_plain render 1 st tg s Hcr). cbv zeta.
  change (Nat.ltb 1 1) with false. cbv iota. unfold fst.
  unfold tags_for. rewrite Hre, orb_true_r.
  destruct (negb (is_blank _)); simpl; rewrite !in_app_iff; simpl; tauto.
Qed.

End PatternMore.

Lemma re_exception_spec_witness :
  PyStr.re_exception "ValueError: x" = true
  /\ exists name rest,
       all_letters name = true /\ "KeyError: 'k'" = name +:+ "Error:" +:+ rest.
Proof.
  split.
  - apply (proj2 (re_exception_spec "ValueError: x")).
    exists "Value", " x". split; reflexivity.
  - apply (proj1 (re_exception_spec "KeyError: 'k'")). reflexivity.
Defined.

Lemma write_error_line_is_red_witness :
  In (EvInsert "ValueError: bad" ["red"; "blue"])
     (trace (write sample_render [VStr "ValueError: bad"] (TTuple ["blue"]) initial)).
Proof.
  exact (write_error_line_is_red sample_render "Value" " bad" (TTuple ["blue"]) initial
           eq_refl eq_refl eq_refl).
Defined.

(** ** Clearing and greeting *)

(** The console with the one attribute of its prompt that [clear]
    writes. *)
Record console := Console {
  interpreter : interp;
  is_on_bottom : bool              (* self.prompt.is_on_bottom *)
}.

(** [Interpreter.clear]; the index ["1.0"] is the start of the text. *)
Definition clear (c : console) : console :=
  Console (text_delete 0 (interpreter c)) false.

(** [Clear.__call__]: the builtin [clear()]. *)
Definition Clear_call (c : console) : console :=
  let c' := clear c in
  Console (log EvPrompt (interpreter c')) (is_on_bottom c').

(** [Clear.__repr__]: what the bare name [clear] evaluates to at the
    prompt. *)
Definition Clear_repr (c : console) : console * string :=
  (Clear_call c, "").

Section ConsoleMore.

Variable render : value -> string.

Import PyStr PyStrFacts.

(** The text of [do_greet], [__version__] being a constant of
    [mathinspector/config]. *)
Definition greeting (version : string) : string :=
  "Math Inspector " +:+ version +:+ " (Beta)" +:+ nl +:+
  "Type " +:+ dquote +:+ "help" +:+ dquote +:+ ", " +:+
  dquote +:+ "copyright" +:+ dquote +:+ ", " +:+
  dquote +:+ "credits" +:+ dquote +:+ ", " +:+
  dquote +:+ "license" +:+ dquote +:+ " for more information".

Definition do_greet (version : string) : M unit :=
  lift (write render [VStr (greeting version)] (TTuple [])) ;;
  lift (log EvPrompt).

Lemma ends_visible_app (s t : string) :
  ends_visible t = true -> ends_visible (s +:+ t) = true.
Proof.
  intros Ht. induction s as [|a s IH]; [exact Ht|].
  rewrite app_cons. simpl.
  destruct (s +:+ t) as [|b r]; [discriminate IH | exact IH].
Qed.

Lemma greeting_visible (version : string) :
  starts_like_name (greeting version) = true
  /\ ends_visible (greeting version) = true
  /\ contains chr_cr (greeting version) = contains chr_cr version
  /\ re_traceback (greeting version) = false
  /\ re_exception (greeting version) = false.
Proof.
  split; [reflexivity|]. split.
  - unfold greeting. do 20 apply ends_visible_app. reflexivity.
  - split; [|split; reflexivity].
    unfold greeting. rewrite !contains_app. simpl.
    rewrite !orb_false_r. reflexivity.
Qed.

(** X25: On a console whose output is not suppressed [do_greet] appends the
    banner, in the default colour, and a newline to the display, and then
    calls the prompt; the version string only has to hold no carriage
    return. *)
Theorem do_greet_shows_banner (version : string) (st : interp) :
  prevent_module_import st = false ->
  contains chr_cr version = false ->
  exists st',
    do_greet version st = Ok tt st'
    /\ display st' = display st +:+ greeting version +:+ nl
    /\ trace st' =
         (trace st ++
          [EvInsert (greeting version) []; EvInsert nl []; EvSee; EvPromptMove;
           EvPrompt])%list.
Proof.
  intros Hflag Hcr.
  destruct (greeting_visible version) as (H1 & H2 & H3 & H4 & H5).
  rewrite Hcr in H3.
  destruct (write_visible render (greeting version) (TTuple []) st Hflag H1 H2)
    as [Hd Ht].
  unfold shown in Hd, Ht. rewrite H3 in Hd, Ht.
  unfold tags_for in Ht. rewrite H4, H5 in Ht. simpl in Ht.
  eexists. split; [reflexivity|]. cbn [display trace log]. split.
  - exact Hd.
  - rewrite Ht, <- !List.app_assoc. reflexivity.
Qed.

Lemma slice_to_empty (n : nat) : slice_to n "" = "".
Proof. destruct n; reflexivity. Qed.

(** X26: [clear] empties the display whether or not output is suppressed, and
    leaves the lines of a statement under way in the input buffer.  The
    builtin [clear] then calls the prompt, and the empty string its
    representation returns is one of the items [write] ignores, so that the
    display stays empty; the next visible text written is all the display
    holds, after a newline if that text had a carriage return. *)
Theorem display_after_clear (c : console) (s : string) (tg : tags) :
  let c' := fst (Clear_repr c) in
  display (interpreter (clear c)) = ""
  /\ buffer (interpreter (clear c)) = buffer (interpreter c)
  /\ trace (interpreter c') = (trace (interpreter c) ++ [EvDelete 0; EvPrompt])%list
  /\ write render [VStr (snd (Clear_repr c))] tg (interpreter c') = interpreter c'
  /\ display (interpreter c') = ""
  /\ (prevent_module_import (interpreter c) = false ->
      starts_like_name s = true ->
      ends_visible s = true ->
      display (write render [VStr s] tg (interpreter c'))
      = (if contains chr_cr s then nl else "") +:+ shown s +:+ nl).
Proof.
  cbv zeta. split; [reflexivity|]. split; [reflexivity|].
  split; [simpl; rewrite <- !List.app_assoc; reflexivity|].
  split.
  { unfold write. simpl. destruct (prevent_module_import (interpreter c)); reflexivity. }
  split; [reflexivity|].
  intros Hflag Hname Hend.
  destruct (write_visible render s tg (interpreter (fst (Clear_repr c)))
              Hflag Hname Hend) as [Hd _].
  rewrite Hd. cbn [Clear_repr Clear_call clear fst interpreter is_on_bottom
                   display log text_delete with_display cursor_position].
  change (slice_to 0 (display (interpreter c))) with "".
  rewrite slice_to_empty.
  destruct (contains chr_cr s); reflexivity.
Qed.

End ConsoleMore.

Lemma do_greet_shows_banner_witness :
  exists st',
    do_greet sample_render "0.9.5" initial = Ok tt st'
    /\ display st' = greeting "0.9.5" +:+ PyStr.nl.
Proof.
  destruct (do_greet_shows_banner sample_render "0.9.5" initial eq_refl eq_refl)
    as (st' & H1 & H2 & _).
  exists st'. split; [exact H1 | exact H2].
Defined.

Lemma display_after_clear_witness :
  display
    (write sample_render [VStr "hello"] (TTuple [])
       (interpreter (fst (Clear_repr (Console (with_display "old text" initial) true)))))
  = "hello" +:+ PyStr.nl.
Proof.
  exact (proj2 (proj2 (proj2 (proj2 (proj2
    (display_after_clear sample_render (Console (with_display "old text" initial) true)
       "hello" (TTuple []))))))
    eq_refl eq_refl eq_refl).
Defined.
